(** * Canva-to-HTML converter: prompt construction and response extraction

    A shallow embedding of [CanvaToHTMLAgent] (streamlit_app.py) and of the
    "Generate" button handler, together with the properties of the prompt
    builder, of [_extract_html] and of the two-stage orchestration. *)

From Stdlib Require Import ZArith Ascii String.
From stdpp Require Import base list strings gmap.

Local Open Scope Z_scope.

(** ** Python strings

    A Python [str] is a sequence of Unicode code points.  A code point is
    kept as a number, so that every character the service can reply with
    (and the emoji of the user interface) is in the model. *)

Module Py.

Abbreviation char := N.
Abbreviation str := (list char).

(** A literal of the source, character by character. *)
Definition lit (s : string) : str :=
  map N_of_ascii (list_ascii_of_string s).

Definition nl : str := [10%N].

(** [s.startswith(prefix)]. *)
Fixpoint startswith (s prefix : str) {struct prefix} : bool :=
  match prefix, s with
  | [], _ => true
  | _ :: _, [] => false
  | p :: prefix', c :: s' => (p =? c)%N && startswith s' prefix'
  end.

(** Lowest offset at which [sub] occurs in [s], if any. *)
Fixpoint find_nat (s sub : str) : option nat :=
  if startswith s sub then Some 0%nat
  else match s with
       | [] => None
       | _ :: s' => S <$> find_nat s' sub
       end.

(** Highest offset at which [sub] occurs in [s], if any. *)
Fixpoint rfind_nat (s sub : str) : option nat :=
  match s with
  | [] => if startswith [] sub then Some 0%nat else None
  | _ :: s' =>
      match rfind_nat s' sub with
      | Some i => Some (S i)
      | None => if startswith s sub then Some 0%nat else None
      end
  end.

(** [sub in s]. *)
Definition contains (s sub : str) : bool :=
  match find_nat s sub with Some _ => true | None => false end.

(** [s.find(sub, start)]: a negative [start] counts from the end, a
    [start] past the end finds nothing, and the answer is [-1] when there
    is no occurrence at or after [start]. *)
Definition find (s sub : str) (start : Z) : Z :=
  let n := Z.of_nat (length s) in
  let start := if start <? 0 then Z.max (start + n) 0 else start in
  if start >? n then -1
  else match find_nat (drop (Z.to_nat start) s) sub with
       | Some i => start + Z.of_nat i
       | None => -1
       end.

(** [s.rfind(sub)]. *)
Definition rfind (s sub : str) : Z :=
  match rfind_nat s sub with
  | Some i => Z.of_nat i
  | None => -1
  end.

(** How a slice bound is read against a sequence of length [n]: negative
    bounds count from the end, and everything is clipped to [0..n]. *)
Definition slice_index (n i : Z) : Z :=
  if i <? 0 then Z.max (i + n) 0 else Z.min i n.

(** [s[start:stop]]. *)
Definition slice (s : str) (start stop : Z) : str :=
  let n := Z.of_nat (length s) in
  let a := slice_index n start in
  let b := slice_index n stop in
  take (Z.to_nat (b - a)) (drop (Z.to_nat a) s).

(** [c.isspace()] for one code point: the Unicode whitespace characters. *)
Definition isspace (c : char) : bool :=
  ((9 <=? c) && (c <=? 13) || (28 <=? c) && (c <=? 32)
   || (c =? 133) || (c =? 160) || (c =? 5760)
   || (8192 <=? c) && (c <=? 8202)
   || (c =? 8232) || (c =? 8233) || (c =? 8239) || (c =? 8287)
   || (c =? 12288))%N.

Fixpoint lstrip (s : str) : str :=
  match s with
  | [] => []
  | c :: s' => if isspace c then lstrip s' else s
  end.

Definition rstrip (s : str) : str := rev (lstrip (rev s)).

(** [s.strip()]. *)
Definition strip (s : str) : str := rstrip (lstrip s).

(** [sep.join(items)]. *)
Fixpoint join (sep : str) (items : list str) : str :=
  match items with
  | [] => []
  | [x] => x
  | x :: rest => x ++ sep ++ join sep rest
  end.

End Py.

Import Py.

(** ** Values and dictionaries

    The results of the agent are Python dictionaries from key to value; a
    value here is a string or a boolean, and [d !! k] is [d.get(k)], with
    [None] for Python's [None]. *)

Inductive pyval :=
| PyStr (s : str)
| PyBool (b : bool).

Abbreviation dict := (gmap string pyval).

(** Truth value of a string, of a value, of the result of [d.get(k)]. *)
Definition truthy_str (s : str) : bool :=
  match s with [] => false | _ :: _ => true end.

Definition truthy (v : option pyval) : bool :=
  match v with
  | Some (PyStr s) => truthy_str s
  | Some (PyBool b) => b
  | None => false
  end.

(** What an f-string prints for [{v}]. *)
Definition format (v : option pyval) : str :=
  match v with
  | Some (PyStr s) => s
  | Some (PyBool true) => lit "True"
  | Some (PyBool false) => lit "False"
  | None => lit "None"
  end.

(** The [customizations] dictionary that the button handler builds: six
    fixed keys, five strings (empty for "keep the original") and one
    boolean. *)
Record CustomizationRequest := {
  color_scheme : str;
  font_size : str;
  spacing : str;
  button_style : str;
  animations : bool;
  custom_instructions : str
}.

Record DesignImage := {
  width : nat;
  height : nat;
  payload : list N
}.

(** ** The generation service

    [model.generate_content([prompt, image])] either raises or returns a
    response, whose [text] attribute either is a string or raises in turn.
    An exception is kept as the text [str(e)] gives. *)

Record Exception := { message : str }.

Inductive ResponseText :=
| Text (t : str)
| TextRaises (e : Exception).

Inductive Outcome :=
| Returns (r : ResponseText)
| Raises (e : Exception).

Record Request := {
  req_prompt : str;
  req_image : DesignImage
}.

(** The service answers a request in view of the requests made so far. *)
Definition Service := list Request → Request → Outcome.

(** ** Response extraction *)

Definition fence_html : str := lit "```html".
Definition fence : str := lit "```".
Definition doctype : str := lit "<!DOCTYPE".
Definition close_html : str := lit "</html>".

Definition _extract_html (response_text : str) : str :=
  if contains response_text fence_html then
    let start := find response_text fence_html 0 + 7 in
    let end_ := find response_text fence start in
    strip (slice response_text start end_)
  else if contains response_text fence then
    let start := find response_text fence 0 + 3 in
    let end_ := find response_text fence start in
    strip (slice response_text start end_)
  else if contains response_text doctype then
    let start := find response_text doctype 0 in
    let end_ := rfind response_text close_html + 7 in
    if end_ >? start then strip (slice response_text start end_)
    else strip response_text
  else strip response_text.

(** ** Prompt construction *)

Definition analysis_rubric : str :=
  lit "Analyze this web design template image in extreme detail:" ++ nl ++
  nl ++
  lit "1. LAYOUT STRUCTURE: sections, grid, hierarchy" ++ nl ++
  lit "2. COLOR SCHEME: backgrounds, text, buttons, accents (hex codes)" ++ nl ++
  lit "3. TYPOGRAPHY: heading styles, body text, font weights" ++ nl ++
  lit "4. UI ELEMENTS: buttons, forms, images, icons, navigation" ++ nl ++
  lit "5. SPACING: padding, margins, alignment" ++ nl ++
  lit "6. SPECIAL EFFECTS: shadows, borders, gradients".

Definition base_prompt (custom_instructions : str) : str :=
  let base_prompt := analysis_rubric in
  if truthy_str custom_instructions then
    base_prompt ++ nl ++ nl ++ lit "ADDITIONAL FOCUS:" ++ nl ++ custom_instructions
  else base_prompt.

(** The list [custom_css], filled by one conditional [append] after the
    other. *)
Definition custom_css (customizations : CustomizationRequest) : list str :=
  let custom_css := [] in
  let custom_css :=
    if truthy_str (color_scheme customizations) then
      custom_css ++ [lit "Use a " ++ color_scheme customizations ++ lit " color scheme"]
    else custom_css in
  let custom_css :=
    if truthy_str (font_size customizations) then
      custom_css ++ [lit "Use " ++ font_size customizations ++ lit " font sizes"]
    else custom_css in
  let custom_css :=
    if truthy_str (spacing customizations) then
      custom_css ++ [lit "Use " ++ spacing customizations ++ lit " spacing"]
    else custom_css in
  let custom_css :=
    if truthy_str (button_style customizations) then
      custom_css ++ [lit "Style buttons as " ++ button_style customizations]
    else custom_css in
  let custom_css :=
    if animations customizations then
      custom_css ++ [lit "Add smooth CSS animations and transitions"]
    else custom_css in
  let custom_css :=
    if truthy_str (custom_instructions customizations) then
      custom_css ++ [custom_instructions customizations]
    else custom_css in
  custom_css.

Definition customization_text (customizations : CustomizationRequest) : str :=
  match custom_css customizations with
  | [] => lit "Follow original design"
  | _ :: _ => join (nl ++ lit "- ") (custom_css customizations)
  end.

Definition requirements : str :=
  lit "REQUIREMENTS:" ++ nl ++
  lit "1. Complete HTML5 document with DOCTYPE" ++ nl ++
  lit "2. Semantic HTML5 tags (header, nav, main, section, footer)" ++ nl ++
  lit "3. Modern CSS (Flexbox/Grid for layout)" ++ nl ++
  lit "4. Fully responsive (mobile-friendly with media queries)" ++ nl ++
  lit "5. Include ALL elements: text, buttons, forms, images (use https://placehold.co/800x400 for images)" ++ nl ++
  lit "6. Match colors exactly (use hex codes)" ++ nl ++
  lit "7. Add hover effects and transitions" ++ nl ++
  lit "8. Include viewport meta tag" ++ nl ++
  lit "9. Embed all CSS in <style> tag" ++ nl ++
  lit "10. Add helpful comments" ++ nl ++
  nl ++
  lit "OUTPUT: Provide ONLY complete HTML code. Start with <!DOCTYPE html> and end with </html>. No explanations.".

Definition code_prompt (analysis : dict) (customizations : CustomizationRequest) : str :=
  lit "Generate complete HTML and CSS code based on this analysis:" ++ nl ++
  nl ++
  lit "ANALYSIS:" ++ nl ++
  format (Some (default (PyStr []) (analysis !! "raw_analysis"))) ++ nl ++
  nl ++
  lit "CUSTOMIZATIONS:" ++ nl ++
  lit "- " ++ customization_text customizations ++ nl ++
  nl ++
  requirements.

(** ** The application state and its small state monad

    What one run of the script can change: the requests sent to the
    service, the two entries of [st.session_state], and what is shown to
    the user. *)

Inductive UiEvent :=
| Spinner (label : str)
| Warning (body : str)
| Error (body : str)
| Success (body : str).

Record App := {
  calls : list Request;
  session_analysis : option dict;
  session_generated_html : option pyval;
  ui : list UiEvent
}.

Definition M (A : Type) : Type := App → A * App.

#[global] Instance M_ret : MRet M := λ A (a : A) w, (a, w).

#[global] Instance M_bind : MBind M :=
  λ A B (k : A → M B) (m : M A) w, let '(a, w') := m w in k a w'.

Definition show (e : UiEvent) : M unit :=
  λ w, (tt, {| calls := calls w; session_analysis := session_analysis w;
               session_generated_html := session_generated_html w;
               ui := ui w ++ [e] |}).

Definition set_analysis (a : dict) : M unit :=
  λ w, (tt, {| calls := calls w; session_analysis := Some a;
               session_generated_html := session_generated_html w;
               ui := ui w |}).

Definition set_generated_html (h : pyval) : M unit :=
  λ w, (tt, {| calls := calls w; session_analysis := session_analysis w;
               session_generated_html := Some h;
               ui := ui w |}).

Section Agent.

Variable service : Service.

(** [self.model.generate_content([prompt, image])]. *)
Definition generate_content (prompt : str) (image : DesignImage) : M Outcome :=
  λ w, let req := {| req_prompt := prompt; req_image := image |} in
       (service (calls w) req,
        {| calls := calls w ++ [req]; session_analysis := session_analysis w;
           session_generated_html := session_generated_html w;
           ui := ui w |}).

Definition failure (e : Exception) : dict :=
  {[ "error" := PyStr (message e); "success" := PyBool false ]}.

Definition analyze_design (image : DesignImage) (custom_instructions : str) : M dict :=
  response ← generate_content (base_prompt custom_instructions) image;
  match response with
  | Returns (Text t) =>
      mret {[ "raw_analysis" := PyStr t; "success" := PyBool true ]}
  | Returns (TextRaises e) => mret (failure e)
  | Raises e => mret (failure e)
  end.

Definition generate_html_css (analysis : dict) (image : DesignImage)
    (customizations : CustomizationRequest) : M dict :=
  response ← generate_content (code_prompt analysis customizations) image;
  match response with
  | Returns (Text t) =>
      let html_code := _extract_html t in
      mret {[ "html" := PyStr html_code; "success" := PyBool true ]}
  | Returns (TextRaises e) => mret (failure e)
  | Raises e => mret (failure e)
  end.

(** ** The "Generate" button

    [Stopped] is [st.stop()]: the script run ends there (the exception
    behind it is no [Exception], so the handler's [except Exception] lets it
    through).  A missing ["html"] key is the [KeyError] that this [except]
    turns into an error notice. *)

Inductive ScriptControl := Continues | Stopped.

Definition cross_mark : str := [10060%N].
Definition check_mark : str := [9989%N].
Definition warning_sign : str := [9888%N; 65039%N].
Definition magnifier : str := [128269%N].
Definition laptop : str := [128187%N].

Definition generate_button (api_key : str) (uploaded_file : option DesignImage)
    (clicked : bool) (customizations : CustomizationRequest) : M ScriptControl :=
  if negb (truthy_str api_key) then
    show (Warning (warning_sign ++ lit " Please enter your API key in the sidebar")) ;;
    mret Continues
  else match uploaded_file with
  | None =>
    show (Warning (warning_sign ++ lit " Please upload a Canva template image")) ;;
    mret Continues
  | Some image =>
    if clicked then
      show (Spinner (magnifier ++ lit " Analyzing design...")) ;;
      analysis ← analyze_design image (custom_instructions customizations);
      if negb (truthy (analysis !! "success")) then
        show (Error (cross_mark ++ lit " Analysis Error: " ++ format (analysis !! "error"))) ;;
        mret Stopped
      else
        set_analysis analysis ;;
        show (Spinner (laptop ++ lit " Generating HTML/CSS... (this may take 30-60 seconds)")) ;;
        result ← generate_html_css analysis image customizations;
        (if truthy (result !! "success") then
           match result !! "html" with
           | Some h =>
               set_generated_html h ;;
               show (Success (check_mark ++ lit " HTML/CSS generated successfully!"))
           | None =>
               show (Error (cross_mark ++ lit " Error: 'html'"))
           end
         else
           show (Error (cross_mark ++ lit " Generation Error: " ++ format (result !! "error")))) ;;
        mret Continues
    else mret Continues
  end.

End Agent.

(** ** Occurrences of a substring

    Where a substring occurs, where it occurs first, where it occurs
    last. *)

Definition occurs_at (s sub : str) (i : nat) : Prop :=
  ∃ pre post, s = pre ++ sub ++ post ∧ length pre = i.

Definition occurs (s sub : str) : Prop := ∃ i, occurs_at s sub i.

Definition first_occurrence (s sub : str) (i : nat) : Prop :=
  occurs_at s sub i ∧ ∀ k, occurs_at s sub k → (i ≤ k)%nat.

Definition last_occurrence (s sub : str) (i : nat) : Prop :=
  occurs_at s sub i ∧ ∀ k, occurs_at s sub k → (k ≤ i)%nat.

(** The first occurrence at or after offset [start]. *)
Definition first_occurrence_from (s sub : str) (start i : nat) : Prop :=
  (start ≤ i)%nat ∧ occurs_at s sub i ∧
  ∀ k, (start ≤ k)%nat → occurs_at s sub k → (i ≤ k)%nat.

Definition none_from (s sub : str) (start : nat) : Prop :=
  ∀ k, (start ≤ k)%nat → ¬ occurs_at s sub k.

(** The characters of [s] at offsets [a], ..., [b - 1]. *)
Definition segment (s : str) (a b : nat) : str := take (b - a) (drop a s).

(** Nothing left for [strip] to remove. *)
Definition stripped (s : str) : Prop := strip s = s.

(** A reply that is nothing but an HTML document: it opens with the doctype
    and closes with the closing root tag. *)
Definition bare_document (s : str) : Prop :=
  (∃ rest, s = doctype ++ rest) ∧ (∃ front, s = front ++ close_html).

(** The reading of a generic block that skips a language marker: the word
    that follows the opening backticks is left out of the content. *)
Fixpoint after_language_marker (s : str) : str :=
  match s with
  | [] => []
  | c :: s' => if isspace c then s else after_language_marker s'
  end.

(** Replies used as examples. *)
Definition prose_and_tagged_block : str :=
  lit "Start from <!DOCTYPE html> as usual: ```html" ++ nl ++
  lit "<p>hi</p>" ++ nl ++ lit "``` Done.".

Definition two_closing_tags : str :=
  lit "Note '</html>' ends a page. <!DOCTYPE html><html>'</html>'</html> Bye".

Definition closing_tag_first : str := lit "</html><!DOCTYPE html>".

Definition css_block : str :=
  lit "```css" ++ nl ++ lit "body{}" ++ nl ++ lit "```".

Definition plain_prose : str := lit "  I cannot help with that.  ".

Definition small_document : str := lit "<!DOCTYPE html><html></html>".

Definition truncated_document : str := lit "<!DOCTYPE html><html><body>".

Definition late_doctype : str := lit " Sorry: <!DOCTYPE html> was cut ".



Definition block_with_trailer : str :=
  lit "```html" ++ nl ++ lit "<!DOCTYPE html><html></html><!-- end -->" ++ nl ++ lit "```".

Definition indented_truncated_document : str :=
  lit "      <!DOCTYPE html><html><body>".

(** ** Vocabulary of the prompt and of the run *)

(** The customization lines as the specification lists them: one row per
    field, in the fixed order, with whether the field is present and the
    line it stands for. *)
Definition instruction_table (c : CustomizationRequest) : list (bool * str) :=
  [ (truthy_str (color_scheme c), lit "Use a " ++ color_scheme c ++ lit " color scheme");
    (truthy_str (font_size c), lit "Use " ++ font_size c ++ lit " font sizes");
    (truthy_str (spacing c), lit "Use " ++ spacing c ++ lit " spacing");
    (truthy_str (button_style c), lit "Style buttons as " ++ button_style c);
    (animations c, lit "Add smooth CSS animations and transitions");
    (truthy_str (custom_instructions c), custom_instructions c) ].

Definition present_lines (c : CustomizationRequest) : list str :=
  map snd (List.filter fst (instruction_table c)).

Definition any_field_set (c : CustomizationRequest) : bool :=
  existsb fst (instruction_table c).

(** What comes before the customization lines in the prompt. *)
Definition prompt_head (analysis : dict) : str :=
  lit "Generate complete HTML and CSS code based on this analysis:" ++ nl ++
  nl ++
  lit "ANALYSIS:" ++ nl ++
  format (Some (default (PyStr []) (analysis !! "raw_analysis"))) ++ nl ++
  nl.

Definition some_customizations : CustomizationRequest :=
  {| color_scheme := lit "Modern Dark"; font_size := []; spacing := lit "compact";
     button_style := []; animations := true;
     custom_instructions := lit "Add a sticky navigation bar" |}.

Definition no_customizations : CustomizationRequest :=
  {| color_scheme := []; font_size := []; spacing := []; button_style := [];
     animations := false; custom_instructions := [] |}.

(** The exception, if any, that reaches the [except] clause around a
    service call. *)
Definition raised (o : Outcome) : option Exception :=
  match o with
  | Raises e => Some e
  | Returns (TextRaises e) => Some e
  | Returns (Text _) => None
  end.

(** A result holds its payload or an error message, and not both. *)
Definition payload_xor_error (payload : string) (r : dict) : Prop :=
  (is_Some (r !! payload) ∧ r !! "error" = None) ∨
  (r !! payload = None ∧ is_Some (r !! "error")).

Definition analysis_request (image : DesignImage) (c : CustomizationRequest) : Request :=
  {| req_prompt := base_prompt (custom_instructions c); req_image := image |}.

Definition quota_service : Service :=
  λ _ _, Raises {| message := lit "quota exceeded" |}.

Definition fresh_app : App :=
  {| calls := []; session_analysis := None; session_generated_html := None; ui := [] |}.

Definition one_pixel : DesignImage := {| width := 1; height := 1; payload := [] |}.

Definition some_key : str := lit "secret".

(** ** The rest of the script

    The select boxes of the sidebar, the dictionary the button handler
    builds from them, and the results section below the handler. *)

(** [u] is a run of consecutive characters of [s]. *)
Definition part_of (u s : str) : Prop := ∃ l r, s = l ++ u ++ r.

(** [s.split()]: the words of [s], cut at runs of whitespace.  [word] is
    the word being read, last character first. *)
Fixpoint split_from (word s : str) : list str :=
  match s with
  | [] => match word with [] => [] | _ :: _ => [rev word] end
  | c :: s' =>
      if isspace c then
        match word with
        | [] => split_from [] s'
        | _ :: _ => rev word :: split_from [] s'
        end
      else split_from (c :: word) s'
  end.

Definition split (s : str) : list str := split_from [] s.

(** [s.lower()] on ASCII text, which is all the select boxes offer: the
    letters A to Z go to a to z and nothing else changes. *)
Definition lower_char (c : char) : char :=
  if ((65 <=? c) && (c <=? 90))%N then (c + 32)%N else c.

Definition lower (s : str) : str := map lower_char s.

Definition color_scheme_options : list str :=
  [lit "Original (from design)"; lit "Modern Dark"; lit "Light & Minimal";
   lit "Vibrant & Colorful"; lit "Professional Blue"; lit "Warm Earth Tones"].

Definition font_size_options : list str :=
  [lit "Standard"; lit "Small (Mobile-friendly)"; lit "Large (Accessibility)";
   lit "Extra Large"].

Definition spacing_options : list str :=
  [lit "Normal"; lit "Compact"; lit "Generous"; lit "Extra Spacious"].

Definition button_style_options : list str :=
  [lit "Original"; lit "Rounded with Shadow"; lit "Flat Modern"; lit "Gradient";
   lit "Outlined"].

(** The dictionary [customizations] of the button handler, from the values
    of the widgets; [None] is the [IndexError] of [split()[0]] on a font
    size without a word. *)
Definition prepare_customizations (color_scheme_choice font_size_choice
    spacing_choice button_style_choice : str) (animations_choice : bool)
    (custom_instructions_text : str) : option CustomizationRequest :=
  font ←
    (if decide (font_size_choice ≠ lit "Standard") then
       lower <$> head (split font_size_choice)
     else Some []);
  Some {|
    color_scheme :=
      if decide (color_scheme_choice ≠ lit "Original (from design)")
      then color_scheme_choice else [];
    font_size := font;
    spacing :=
      if decide (spacing_choice ≠ lit "Normal") then lower spacing_choice else [];
    button_style :=
      if decide (button_style_choice ≠ lit "Original")
      then lower button_style_choice else [];
    animations := animations_choice;
    custom_instructions := custom_instructions_text
  |}.

(** What the results section puts on the page. *)
Inductive Widget :=
| Markdown (body : str)
| Header (body : str)
| Subheader (body : str)
| Tabs (labels : list str)
| HtmlComponent (html : pyval) (height : nat) (scrolling : bool)
| DownloadButton (label : str) (data : pyval) (file_name mime : str)
| Expander (label : str)
| CodeBlock (body : pyval) (language : str)
| InfoBox (body : str)
| TextArea (label : str) (value : pyval) (height : nat).

(** Truth value of the stored analysis: a dictionary is true unless it is
    empty. *)
Definition truthy_dict (d : option dict) : bool :=
  match d with
  | Some m => bool_decide (m ≠ ∅)
  | None => false
  end.

Definition analysis_tab (w : App) : list Widget :=
  [Subheader (lit "Design Analysis")] ++
  (if truthy_dict (session_analysis w) then
     match session_analysis w with
     | Some analysis =>
         [TextArea (lit "AI Analysis of Your Design")
            (default (PyStr []) (analysis !! "raw_analysis")) 400]
     | None => []
     end
   else [InfoBox (lit "No analysis available")]).

Definition results_section (w : App) : list Widget :=
  if truthy (session_generated_html w) then
    match session_generated_html w with
    | Some generated_html =>
        [Markdown (lit "---");
         Header ([127881%N] ++ lit " Generated Result");
         Tabs [[128250%N] ++ lit " Preview"; [128190%N] ++ lit " Download";
               [128202%N] ++ lit " Analysis"];
         Subheader (lit "Live Preview");
         HtmlComponent generated_html 600 true;
         Subheader (lit "Download HTML");
         DownloadButton ([128229%N] ++ lit " Download HTML File") generated_html
           (lit "generated_page.html") (lit "text/html");
         Expander ([128064%N] ++ lit " View HTML Code");
         CodeBlock generated_html (lit "html");
         InfoBox ([128161%N] ++
           lit " **Tip:** Open the downloaded HTML file in any browser to view your webpage!")]
        ++ analysis_tab w
    | None => []
    end
  else [].

(** From the button handler to the results section: what is left of the
    script below the handler is not run after [st.stop()]. *)
Definition button_then_results (service : Service) (api_key : str)
    (uploaded_file : option DesignImage) (clicked : bool)
    (customizations : CustomizationRequest) (w : App) : list Widget * App :=
  let '(control, w') :=
    generate_button service api_key uploaded_file clicked customizations w in
  match control with
  | Stopped => ([], w')
  | Continues => (results_section w', w')
  end.

(** The service replies of a run that gets through both stages. *)
Definition analysis_of (a : str) : dict :=
  {[ "raw_analysis" := PyStr a; "success" := PyBool true ]}.

Definition synthesis_request (image : DesignImage) (a : str)
    (c : CustomizationRequest) : Request :=
  {| req_prompt := code_prompt (analysis_of a) c; req_image := image |}.

Definition analysing_spinner : UiEvent :=
  Spinner (magnifier ++ lit " Analyzing design...").

Definition generating_spinner : UiEvent :=
  Spinner (laptop ++ lit " Generating HTML/CSS... (this may take 30-60 seconds)").

(** A service that describes the image, then replies with a page. *)
Definition two_step_service (a h : str) : Service :=
  λ history _, match history with [] => Returns (Text a) | _ :: _ => Returns (Text h) end.

(** A service that describes the image, then fails. *)
Definition second_call_fails (a : str) : Service :=
  λ history _,
    match history with
    | [] => Returns (Text a)
    | _ :: _ => Raises {| message := lit "quota exceeded" |}
    end.

Definition app_with_document : App :=
  {| calls := []; session_analysis := Some (analysis_of (lit "old analysis"));
     session_generated_html := Some (PyStr (lit "<p>old</p>")); ui := [] |}.

(** ** Facts about the string operations *)

Section StringFacts.

Implicit Types s sub pre post : str.

Lemma startswith_app sub post : startswith (sub ++ post) sub = true.
Proof.
  induction sub as [|c sub IH]; simpl; [done|].
  by rewrite N.eqb_refl, IH.
Qed.

Lemma startswith_inv s sub :
  startswith s sub = true → ∃ post, s = sub ++ post.
Proof.
  revert s; induction sub as [|c sub IH]; intros s H.
  - by exists s.
  - destruct s as [|d s]; simpl in H; [done|].
    apply andb_prop in H as [Hc Hs]. apply N.eqb_eq in Hc as ->.
    destruct (IH _ Hs) as [post ->]. by exists post.
Qed.

Lemma occurs_at_0 s sub : occurs_at s sub 0 ↔ startswith s sub = true.
Proof.
  split.
  - intros (pre & post & -> & Hlen). destruct pre; [|done].
    exact (startswith_app sub post).
  - intros H. destruct (startswith_inv _ _ H) as [post ->].
    by exists [], post.
Qed.

Lemma occurs_at_S c s sub k : occurs_at (c :: s) sub (S k) ↔ occurs_at s sub k.
Proof.
  split.
  - intros (pre & post & Heq & Hlen). destruct pre as [|d pre]; [done|].
    simpl in *. exists pre, post. split; [congruence|lia].
  - intros (pre & post & -> & Hlen). exists (c :: pre), post.
    split; [done|simpl; lia].
Qed.

Lemma occurs_at_bound s sub i :
  occurs_at s sub i → (i + length sub ≤ length s)%nat.
Proof.
  intros (pre & post & -> & <-). rewrite !length_app. lia.
Qed.

Lemma occurs_at_drop s sub n i :
  (n ≤ length s)%nat → occurs_at (drop n s) sub i ↔ occurs_at s sub (n + i).
Proof.
  revert s; induction n as [|n IH]; intros s Hn; [by rewrite drop_0|].
  destruct s as [|c s]; [simpl in Hn; lia|].
  simpl in *. rewrite occurs_at_S. apply IH. lia.
Qed.

Lemma occurs_at_segment s sub i :
  occurs_at s sub i → segment s i (i + length sub) = sub.
Proof.
  intros (pre & post & -> & <-). unfold segment.
  rewrite drop_app_length.
  replace (length pre + length sub - length pre)%nat with (length sub) by lia.
  by rewrite take_app_length.
Qed.

Lemma find_nat_None s sub : find_nat s sub = None → ¬ occurs s sub.
Proof.
  induction s as [|c s IH]; simpl; destruct (startswith _ sub) eqn:Hsw;
    try done; intros Hf [k Hk].
  - destruct Hk as (pre & post & Heq & _). destruct pre, sub; try done.
  - destruct k as [|k].
    + apply occurs_at_0 in Hk. congruence.
    + apply occurs_at_S in Hk. destruct (find_nat s sub); [done|].
      apply IH; [done|by exists k].
Qed.

Lemma find_nat_Some s sub i : find_nat s sub = Some i → first_occurrence s sub i.
Proof.
  revert i; induction s as [|c s IH]; intros i; simpl;
    destruct (startswith _ sub) eqn:Hsw; try done.
  - intros [= <-]. split; [by apply occurs_at_0|intros; lia].
  - intros [= <-]. split; [by apply occurs_at_0|intros; lia].
  - destruct (find_nat s sub) as [j|]; [|done]. intros [= <-].
    destruct (IH j eq_refl) as [Hocc Hmin]. split; [by apply occurs_at_S|].
    intros [|k] Hk.
    + apply occurs_at_0 in Hk. congruence.
    + apply occurs_at_S in Hk. apply Hmin in Hk. lia.
Qed.

Lemma first_occurrence_find_nat s sub i :
  first_occurrence s sub i → find_nat s sub = Some i.
Proof.
  intros [Hocc Hmin]. destruct (find_nat s sub) as [j|] eqn:Hf.
  - destruct (find_nat_Some _ _ _ Hf) as [Hj Hjmin].
    f_equal. apply Hmin in Hj. apply Hjmin in Hocc. lia.
  - exfalso. apply (find_nat_None _ _ Hf). by exists i.
Qed.

Lemma contains_true s sub : contains s sub = true ↔ occurs s sub.
Proof.
  unfold contains. destruct (find_nat s sub) as [i|] eqn:Hf.
  - split; [|done]. intros _. exists i. by apply find_nat_Some.
  - split; [done|]. intros H. by apply find_nat_None in H.
Qed.

Lemma contains_false s sub : contains s sub = false ↔ ¬ occurs s sub.
Proof.
  rewrite <- contains_true. by destruct (contains s sub).
Qed.

Lemma rfind_nat_spec s sub :
  match rfind_nat s sub with
  | Some i => last_occurrence s sub i
  | None => ¬ occurs s sub
  end.
Proof.
  induction s as [|c s IH]; simpl.
  - destruct (startswith [] sub) eqn:Hsw.
    + split; [by apply occurs_at_0|].
      intros k Hk. apply occurs_at_bound in Hk. simpl in Hk. lia.
    + intros [k Hk]. pose proof (occurs_at_bound _ _ _ Hk) as Hb.
      simpl in Hb. assert (k = 0%nat) as -> by lia.
      apply occurs_at_0 in Hk. congruence.
  - destruct (rfind_nat s sub) as [i|].
    + destruct IH as [Hocc Hmax]. split; [by apply occurs_at_S|].
      intros [|k] Hk; [lia|]. apply occurs_at_S, Hmax in Hk. lia.
    + destruct (startswith (c :: s) sub) eqn:Hsw.
      * split; [by apply occurs_at_0|].
        intros [|k] Hk; [lia|]. apply occurs_at_S in Hk.
        exfalso. apply IH. by exists k.
      * intros [[|k] Hk].
        -- apply occurs_at_0 in Hk. congruence.
        -- apply occurs_at_S in Hk. apply IH. by exists k.
Qed.

Lemma last_occurrence_rfind s sub i :
  last_occurrence s sub i → rfind s sub = Z.of_nat i.
Proof.
  intros [Hocc Hmax]. unfold rfind.
  pose proof (rfind_nat_spec s sub) as H.
  destruct (rfind_nat s sub) as [j|].
  - destruct H as [Hj Hjmax]. apply Hmax in Hj. apply Hjmax in Hocc. lia.
  - exfalso. apply H. by exists i.
Qed.

Lemma not_occurs_rfind s sub : ¬ occurs s sub → rfind s sub = -1.
Proof.
  intros Hno. unfold rfind.
  pose proof (rfind_nat_spec s sub) as H.
  destruct (rfind_nat s sub) as [j|]; [|done].
  exfalso. apply Hno. exists j. apply H.
Qed.

(** [find] from a valid offset, in terms of occurrences. *)
Lemma find_from_first s sub start i :
  first_occurrence_from s sub start i →
  find s sub (Z.of_nat start) = Z.of_nat i.
Proof.
  intros (Hle & Hocc & Hmin).
  pose proof (occurs_at_bound _ _ _ Hocc) as Hb.
  unfold find.
  destruct (Z.ltb_spec (Z.of_nat start) 0); [lia|].
  destruct (Z.gtb_spec (Z.of_nat start) (Z.of_nat (length s))); [lia|].
  rewrite Nat2Z.id.
  rewrite (first_occurrence_find_nat (drop start s) sub (i - start)); [lia|].
  split.
  - apply occurs_at_drop; [lia|]. by replace (start + (i - start))%nat with i by lia.
  - intros k Hk. apply occurs_at_drop in Hk; [|lia].
    apply Hmin in Hk; lia.
Qed.

Lemma find_from_none s sub start :
  (start ≤ length s)%nat → none_from s sub start →
  find s sub (Z.of_nat start) = -1.
Proof.
  intros Hle Hnone. unfold find.
  destruct (Z.ltb_spec (Z.of_nat start) 0); [lia|].
  destruct (Z.gtb_spec (Z.of_nat start) (Z.of_nat (length s))); [lia|].
  rewrite Nat2Z.id.
  destruct (find_nat (drop start s) sub) as [j|] eqn:Hf; [|done].
  exfalso. apply find_nat_Some in Hf as [Hj _].
  apply occurs_at_drop in Hj; [|done]. apply (Hnone (start + j)%nat); [lia|done].
Qed.

Lemma find_first s sub i :
  first_occurrence s sub i → find s sub 0 = Z.of_nat i.
Proof.
  intros [Hocc Hmin]. apply (find_from_first s sub 0 i).
  split; [lia|]. split; [done|]. intros k _. apply Hmin.
Qed.

(** Slices with bounds inside the string are segments. *)
Lemma slice_segment s a b :
  (a ≤ length s)%nat → (b ≤ length s)%nat →
  slice s (Z.of_nat a) (Z.of_nat b) = segment s a b.
Proof.
  intros Ha Hb. unfold slice, slice_index, segment.
  destruct (Z.ltb_spec (Z.of_nat a) 0); [lia|].
  destruct (Z.ltb_spec (Z.of_nat b) 0); [lia|].
  rewrite !Z.min_l by lia. rewrite Nat2Z.id. f_equal. lia.
Qed.

(** A slice that ends at [-1] leaves the last character out. *)
Lemma slice_to_minus_one s a :
  (a ≤ length s)%nat →
  slice s (Z.of_nat a) (-1) = removelast (drop a s).
Proof.
  intros Ha. unfold slice, slice_index.
  destruct (Z.ltb_spec (Z.of_nat a) 0); [lia|].
  destruct (Z.ltb_spec (-1) 0); [|lia].
  rewrite Z.min_l by lia. rewrite Nat2Z.id.
  rewrite removelast_firstn_len, length_drop. f_equal. lia.
Qed.

(** [strip] keeps a middle part of the string, and does nothing to a string
    it has already trimmed. *)
Lemma lstrip_suffix s : ∃ l, s = l ++ lstrip s.
Proof.
  induction s as [|c s [l IH]]; [by exists []|]. simpl.
  destruct (isspace c); [|by exists []].
  exists (c :: l). simpl. by f_equal.
Qed.

Lemma rstrip_prefix s : ∃ r, s = rstrip s ++ r.
Proof.
  unfold rstrip. destruct (lstrip_suffix (rev s)) as [l Hl].
  exists (rev l). rewrite <- rev_app_distr, <- Hl. by rewrite rev_involutive.
Qed.

Lemma strip_infix s : ∃ l r, s = l ++ strip s ++ r.
Proof.
  unfold strip. destruct (lstrip_suffix s) as [l Hl].
  destruct (rstrip_prefix (lstrip s)) as [r Hr].
  exists l, r. by rewrite <- Hr.
Qed.

Lemma occurs_at_infix l s r sub i :
  occurs_at s sub i → occurs_at (l ++ s ++ r) sub (length l + i).
Proof.
  intros (pre & post & -> & <-). exists (l ++ pre), (post ++ r).
  split; [by rewrite <- !app_assoc|by rewrite length_app].
Qed.

Lemma occurs_strip s sub : occurs (strip s) sub → occurs s sub.
Proof.
  intros [i Hi]. destruct (strip_infix s) as (l & r & Heq).
  rewrite Heq. eexists. by apply occurs_at_infix.
Qed.

Lemma lstrip_idemp s : lstrip (lstrip s) = lstrip s.
Proof.
  induction s as [|c s IH]; [done|]. simpl.
  destruct (isspace c) eqn:Hc; [done|]. simpl. by rewrite Hc.
Qed.

Lemma lstrip_fixed s :
  lstrip s = s ↔ match s with [] => True | c :: _ => isspace c = false end.
Proof.
  destruct s as [|c s]; [done|]. simpl.
  destruct (isspace c); [|done]. split; [|done].
  intros H. destruct (lstrip_suffix s) as [l Hl].
  apply (f_equal length) in H, Hl. rewrite length_app in Hl. simpl in H. lia.
Qed.

Lemma rstrip_idemp s : rstrip (rstrip s) = rstrip s.
Proof.
  unfold rstrip. by rewrite rev_involutive, lstrip_idemp.
Qed.

Lemma lstrip_rstrip s : lstrip s = s → lstrip (rstrip s) = rstrip s.
Proof.
  intros H. apply lstrip_fixed. apply lstrip_fixed in H.
  destruct (rstrip_prefix s) as [r Hr].
  destruct (rstrip s) as [|c u]; [done|].
  rewrite Hr in H. done.
Qed.

Lemma strip_stripped s : stripped (strip s).
Proof.
  unfold stripped, strip.
  rewrite (lstrip_rstrip (lstrip s)) by apply lstrip_idemp.
  apply rstrip_idemp.
Qed.

Lemma occurs_at_lookup s sub i k :
  occurs_at s sub i → (k < length sub)%nat → s !! (i + k)%nat = sub !! k.
Proof.
  intros (pre & post & -> & <-) Hk.
  rewrite lookup_app_r by lia.
  replace (length pre + k - length pre)%nat with k by lia.
  by rewrite lookup_app_l.
Qed.

(** Occurrences read off a run of the search functions. *)
Lemma first_occurrence_from_drop s sub start k :
  (start ≤ length s)%nat → find_nat (drop start s) sub = Some k →
  first_occurrence_from s sub start (start + k).
Proof.
  intros Hle Hf. apply find_nat_Some in Hf as [Hocc Hmin].
  split; [lia|]. split; [by apply occurs_at_drop|].
  intros j Hj Hoc. replace j with (start + (j - start))%nat in Hoc by lia.
  apply occurs_at_drop, Hmin in Hoc; lia.
Qed.

Lemma none_from_drop s sub start :
  (start ≤ length s)%nat → find_nat (drop start s) sub = None →
  none_from s sub start.
Proof.
  intros Hle Hf j Hj Hoc. apply (find_nat_None _ _ Hf).
  exists (j - start)%nat. apply occurs_at_drop; [done|].
  by replace (start + (j - start))%nat with j by lia.
Qed.

Lemma rfind_nat_Some s sub i : rfind_nat s sub = Some i → last_occurrence s sub i.
Proof.
  intros H. pose proof (rfind_nat_spec s sub) as Hs. by rewrite H in Hs.
Qed.

End StringFacts.

(** ** The response extractor *)

Section Extractor.

Implicit Types t : str.

Lemma fence_html_is_fence t i : occurs_at t fence_html i → occurs_at t fence i.
Proof.
  intros (pre & post & -> & Hlen). exists pre, (lit "html" ++ post).
  split; [|done]. by rewrite (app_assoc fence).
Qed.

Lemma no_fence_no_fence_html t : ¬ occurs t fence → ¬ occurs t fence_html.
Proof.
  intros Hno [i Hi]. apply Hno. exists i. by apply fence_html_is_fence.
Qed.

(** The result is always a trimmed string. *)
Lemma extract_html_stripped t : stripped (_extract_html t).
Proof.
  unfold _extract_html.
  repeat match goal with |- context [if ?b then _ else _] => destruct b end;
    apply strip_stripped.
Qed.

(** The four branches, each under the condition that selects it. *)
Lemma extract_html_branch_tagged t i :
  first_occurrence t fence_html i →
  _extract_html t =
    strip (slice t (Z.of_nat (i + 7)) (find t fence (Z.of_nat (i + 7)))).
Proof.
  intros Hi. unfold _extract_html.
  assert (contains t fence_html = true) as ->.
  { apply contains_true. exists i. apply Hi. }
  rewrite (find_first _ _ _ Hi).
  by replace (Z.of_nat i + 7) with (Z.of_nat (i + 7)) by lia.
Qed.

Lemma extract_html_branch_generic t i :
  ¬ occurs t fence_html → first_occurrence t fence i →
  _extract_html t =
    strip (slice t (Z.of_nat (i + 3)) (find t fence (Z.of_nat (i + 3)))).
Proof.
  intros Hno Hi. unfold _extract_html.
  apply contains_false in Hno as ->.
  assert (contains t fence = true) as ->.
  { apply contains_true. exists i. apply Hi. }
  rewrite (find_first _ _ _ Hi).
  by replace (Z.of_nat i + 3) with (Z.of_nat (i + 3)) by lia.
Qed.

Lemma extract_html_branch_doctype t i :
  ¬ occurs t fence → first_occurrence t doctype i →
  _extract_html t =
    if rfind t close_html + 7 >? Z.of_nat i
    then strip (slice t (Z.of_nat i) (rfind t close_html + 7))
    else strip t.
Proof.
  intros Hno Hi. unfold _extract_html.
  pose proof (no_fence_no_fence_html _ Hno) as Hno'.
  apply contains_false in Hno as ->. apply contains_false in Hno' as ->.
  assert (contains t doctype = true) as ->.
  { apply contains_true. exists i. apply Hi. }
  by rewrite (find_first _ _ _ Hi).
Qed.

Lemma extract_html_branch_fallback t :
  ¬ occurs t fence → ¬ occurs t doctype → _extract_html t = strip t.
Proof.
  intros Hno Hdoc. unfold _extract_html.
  pose proof (no_fence_no_fence_html _ Hno) as Hno'.
  apply contains_false in Hno as ->. apply contains_false in Hno' as ->.
  by apply contains_false in Hdoc as ->.
Qed.

(** A span that starts at the doctype and is cut at offset 6 is a piece of
    the doctype keyword, which [strip] leaves alone. *)
Lemma doctype_prefix_stripped n : stripped (take n doctype).
Proof.
  do 10 (destruct n as [|n]; [by vm_compute|]). by vm_compute.
Qed.

Lemma segment_doctype_prefix t i :
  occurs_at t doctype i → (i < 6)%nat → segment t i 6 = take (6 - i) doctype.
Proof.
  intros (pre & post & -> & <-) Hlt. unfold segment.
  rewrite drop_app_length. apply take_app_le.
  change (length doctype) with 9%nat. lia.
Qed.

(** The closing tag cannot run into the doctype keyword: an occurrence of
    ["</html>"] that starts before the doctype also ends before it. *)
Lemma close_before_doctype t i j :
  occurs_at t doctype i → occurs_at t close_html j → (j < i)%nat →
  (j + 7 ≤ i)%nat.
Proof.
  intros Hi Hj Hlt.
  destruct (decide (j + 7 ≤ i)%nat) as [|Hn]; [done|exfalso].
  pose proof (occurs_at_lookup _ _ _ 0 Hi) as Hd.
  pose proof (occurs_at_lookup _ _ _ (i - j) Hj) as Hc.
  change (length close_html) with 7%nat in Hc.
  change (length doctype) with 9%nat in Hd.
  replace (j + (i - j))%nat with i in Hc by lia.
  replace (i + 0)%nat with i in Hd by lia.
  rewrite Hd in Hc by lia.
  assert (i - j = 1 ∨ i - j = 2 ∨ i - j = 3 ∨ i - j = 4 ∨ i - j = 5 ∨ i - j = 6)%nat
    as Hcases by lia.
  destruct Hcases as [E|[E|[E|[E|[E|E]]]]]; rewrite E in Hc;
    (specialize (Hc ltac:(lia)); vm_compute in Hc; discriminate).
Qed.

End Extractor.

(** Reading occurrences off a concrete reply. *)
Ltac first_at := apply find_nat_Some; vm_compute; reflexivity.
Ltac last_at := apply rfind_nat_Some; vm_compute; reflexivity.
Ltac absent := apply contains_false; vm_compute; reflexivity.
Ltac in_range := vm_compute; lia.

(** C3. When the reply has a block tagged as HTML, the result is the
    trimmed text strictly between the first ["```html"] marker and the next
    ["```"] after it; nothing else in the reply (a doctype in the prose
    around the block, say) is looked at. *)
Theorem extract_html_tagged_block (t : str) (i j : nat) :
  first_occurrence t fence_html i →
  first_occurrence_from t fence (i + 7) j →
  _extract_html t = strip (segment t (i + 7) j).
Proof.
  intros Hi Hj. rewrite (extract_html_branch_tagged _ _ Hi).
  rewrite (find_from_first _ _ _ _ Hj).
  destruct Hj as (Hle & Hocc & _).
  apply occurs_at_bound in Hocc.
  rewrite slice_segment; [done|lia..].
Qed.

Lemma extract_html_tagged_block_witness :
  occurs prose_and_tagged_block doctype ∧
  first_occurrence prose_and_tagged_block fence_html 37 ∧
  first_occurrence_from prose_and_tagged_block fence (37 + 7) 55 ∧
  _extract_html prose_and_tagged_block = lit "<p>hi</p>".
Proof.
  assert (H1 : first_occurrence prose_and_tagged_block fence_html 37) by first_at.
  assert (H2 : first_occurrence_from prose_and_tagged_block fence (37 + 7) 55).
  { apply (first_occurrence_from_drop _ _ 44 11); [in_range|by vm_compute]. }
  split; [apply contains_true; by vm_compute|].
  split; [exact H1|]. split; [exact H2|].
  rewrite (extract_html_tagged_block _ _ _ H1 H2). by vm_compute.
Defined.

(** C4, as amended. In a reply without fences, with the doctype first at
    offset [i] and the closing root tag last at offset [j]: when that last
    closing tag is not before the doctype, the result is the trimmed span
    from the doctype up to and including the last closing tag; when it is
    before the doctype, the guard [end > start] fails and the result is the
    whole reply, trimmed. *)
Theorem extract_html_doctype_span (t : str) (i j : nat) :
  ¬ occurs t fence →
  first_occurrence t doctype i →
  last_occurrence t close_html j →
  ((i ≤ j)%nat → _extract_html t = strip (segment t i (j + 7))) ∧
  ((j < i)%nat → _extract_html t = strip t).
Proof.
  intros Hno Hi Hj. rewrite (extract_html_branch_doctype _ _ Hno Hi).
  rewrite (last_occurrence_rfind _ _ _ Hj).
  destruct Hi as [Hi _], Hj as [Hj _]. split; intros Hij.
  - destruct (Z.gtb_spec (Z.of_nat j + 7) (Z.of_nat i)); [|lia].
    apply occurs_at_bound in Hi, Hj.
    change (length doctype) with 9%nat in Hi.
    change (length close_html) with 7%nat in Hj.
    replace (Z.of_nat j + 7) with (Z.of_nat (j + 7)) by lia.
    rewrite slice_segment; [done|lia..].
  - pose proof (close_before_doctype _ _ _ Hi Hj Hij).
    destruct (Z.gtb_spec (Z.of_nat j + 7) (Z.of_nat i)); [lia|done].
Qed.

Lemma extract_html_doctype_span_witness :
  occurs_at two_closing_tags close_html 50 ∧
  last_occurrence two_closing_tags close_html 58 ∧
  _extract_html two_closing_tags = lit "<!DOCTYPE html><html>'</html>'</html>" ∧
  _extract_html closing_tag_first = closing_tag_first.
Proof.
  assert (H0 : ¬ occurs two_closing_tags fence) by absent.
  assert (H1 : first_occurrence two_closing_tags doctype 28) by first_at.
  assert (H2 : last_occurrence two_closing_tags close_html 58) by last_at.
  split.
  { exists (take 50 two_closing_tags), (drop 57 two_closing_tags).
    split; vm_compute; reflexivity. }
  split; [exact H2|]. split.
  - rewrite (proj1 (extract_html_doctype_span _ _ _ H0 H1 H2)); [by vm_compute|lia].
  - rewrite (proj2 (extract_html_doctype_span closing_tag_first 7 0
                      ltac:(absent) ltac:(first_at) ltac:(last_at)));
      [by vm_compute|lia].
Defined.

(** C4 as stated fails when every closing root tag comes before the
    doctype: the reply is fence-free and has both a doctype and a closing
    tag, yet the result is the whole reply, which does not start at the
    doctype and is not the span that ends with the last closing tag. *)
Lemma extract_html_doctype_span_counterexample :
  ¬ occurs closing_tag_first fence ∧
  first_occurrence closing_tag_first doctype 7 ∧
  last_occurrence closing_tag_first close_html 0 ∧
  _extract_html closing_tag_first = closing_tag_first ∧
  startswith (_extract_html closing_tag_first) doctype = false ∧
  _extract_html closing_tag_first ≠ strip (segment closing_tag_first 7 (0 + 7)).
Proof.
  split; [absent|]. split; [first_at|]. split; [last_at|].
  repeat split; by vm_compute.
Qed.

(** C5, as amended. When the reply has no ["```html"] marker but has a
    ["```"], the result is the trimmed text between the end of the first
    three-backtick delimiter and the next ["```"]; a language marker that
    follows the opening backticks is part of that text. *)
Theorem extract_html_generic_block (t : str) (i j : nat) :
  ¬ occurs t fence_html →
  first_occurrence t fence i →
  first_occurrence_from t fence (i + 3) j →
  _extract_html t = strip (segment t (i + 3) j).
Proof.
  intros Hno Hi Hj. rewrite (extract_html_branch_generic _ _ Hno Hi).
  rewrite (find_from_first _ _ _ _ Hj).
  destruct Hj as (Hle & Hocc & _).
  apply occurs_at_bound in Hocc.
  rewrite slice_segment; [done|lia..].
Qed.

Lemma extract_html_generic_block_witness :
  first_occurrence css_block fence 0 ∧
  first_occurrence_from css_block fence (0 + 3) 14 ∧
  _extract_html css_block = lit "css" ++ nl ++ lit "body{}".
Proof.
  assert (H0 : ¬ occurs css_block fence_html) by absent.
  assert (H1 : first_occurrence css_block fence 0) by first_at.
  assert (H2 : first_occurrence_from css_block fence (0 + 3) 14).
  { apply (first_occurrence_from_drop _ _ 3 11); [in_range|by vm_compute]. }
  split; [exact H1|]. split; [exact H2|].
  rewrite (extract_html_generic_block _ _ _ H0 H1 H2). by vm_compute.
Defined.

(** C5 as stated fails on a block with a language marker: for a block
    opened by ["```css"], the content after the marker is ["body{}"], while
    the result still begins with the marker. *)
Lemma extract_html_generic_block_counterexample :
  ¬ occurs css_block fence_html ∧
  first_occurrence css_block fence 0 ∧
  first_occurrence_from css_block fence (0 + 3) 14 ∧
  strip (after_language_marker (segment css_block (0 + 3) 14)) = lit "body{}" ∧
  _extract_html css_block = lit "css" ++ nl ++ lit "body{}" ∧
  _extract_html css_block ≠
    strip (after_language_marker (segment css_block (0 + 3) 14)).
Proof.
  split; [absent|]. split; [first_at|].
  split; [apply (first_occurrence_from_drop _ _ 3 11); [in_range|by vm_compute]|].
  repeat split; by vm_compute.
Qed.

(** C6, as amended. A reply with no fence and no doctype comes back whole, trimmed,
    and extracting again from that result changes nothing.  The same holds
    for every result that is free of fences and either has no doctype or
    is a bare HTML document (doctype first, closing root tag last):
    extracting from it returns it unchanged. *)
Theorem extract_html_fallback_idempotent :
  (∀ t : str, ¬ occurs t fence → ¬ occurs t doctype →
     _extract_html t = strip t ∧
     _extract_html (_extract_html t) = _extract_html t) ∧
  (∀ t : str, ¬ occurs (_extract_html t) fence →
     ¬ occurs (_extract_html t) doctype ∨ bare_document (_extract_html t) →
     _extract_html (_extract_html t) = _extract_html t).
Proof.
  assert (Hfree : ∀ o : str, stripped o → ¬ occurs o fence → ¬ occurs o doctype →
                    _extract_html o = o).
  { intros o Hs Hno Hdoc. by rewrite extract_html_branch_fallback. }
  split.
  - intros t Hno Hdoc. pose proof (extract_html_branch_fallback _ Hno Hdoc) as Heq.
    split; [done|]. rewrite Heq. apply Hfree.
    + apply strip_stripped.
    + intros H. by apply Hno, occurs_strip.
    + intros H. by apply Hdoc, occurs_strip.
  - intros t. pose proof (extract_html_stripped t) as Hs.
    generalize dependent (_extract_html t). intros o Hs Hno [Hdoc|Hbare].
    { by apply Hfree. }
    destruct Hbare as [[rest Hrest] [front Hfront]].
    assert (first_occurrence o doctype 0) as Hi.
    { split; [by exists [], rest|intros; lia]. }
    assert (last_occurrence o close_html (length front)) as Hj.
    { split; [exists front, []; by rewrite app_nil_r|].
      intros k Hk. apply occurs_at_bound in Hk.
      rewrite Hfront, length_app in Hk. lia. }
    rewrite (extract_html_branch_doctype _ _ Hno Hi).
    rewrite (last_occurrence_rfind _ _ _ Hj).
    destruct (Z.gtb_spec (Z.of_nat (length front) + 7) (Z.of_nat 0)); [|lia].
    replace (Z.of_nat (length front) + 7) with (Z.of_nat (length o))
      by (rewrite Hfront at 1; rewrite length_app; change (length close_html) with 7%nat; lia).
    rewrite slice_segment by lia. unfold segment.
    rewrite drop_0, Nat.sub_0_r, firstn_all. exact Hs.
Qed.

Lemma extract_html_fallback_idempotent_witness :
  (_extract_html plain_prose = lit "I cannot help with that." ∧
   _extract_html (_extract_html plain_prose) = _extract_html plain_prose) ∧
  (_extract_html small_document = small_document ∧
   _extract_html (_extract_html small_document) = _extract_html small_document).
Proof.
  split.
  - destruct (proj1 extract_html_fallback_idempotent plain_prose) as [H1 H2];
      [absent|absent|].
    split; [rewrite H1; by vm_compute|exact H2].
  - split; [by vm_compute|].
    apply (proj2 extract_html_fallback_idempotent small_document); [absent|].
    right. split.
    + exists (lit " html><html></html>"). by vm_compute.
    + exists (lit "<!DOCTYPE html><html>"). by vm_compute.
Defined.

(** C6 as stated fails on results that have a doctype without being a
    bare document.  A reply with no fence, six blanks and a document cut
    short comes back trimmed, free of fences, and a second extraction
    turns it into ["<!DOCT"]; a fenced document with a comment after its
    closing tag comes back free of fences, and a second extraction drops
    the comment. *)
Lemma extract_html_fallback_idempotent_counterexample :
  ¬ occurs indented_truncated_document fence ∧
  _extract_html indented_truncated_document = lit "<!DOCTYPE html><html><body>" ∧
  ¬ occurs (_extract_html indented_truncated_document) fence ∧
  _extract_html (_extract_html indented_truncated_document) = lit "<!DOCT" ∧
  _extract_html (_extract_html indented_truncated_document)
    ≠ _extract_html indented_truncated_document ∧
  ¬ occurs (_extract_html block_with_trailer) fence ∧
  _extract_html (_extract_html block_with_trailer)
    ≠ _extract_html block_with_trailer.
Proof.
  split; [absent|]. split; [by vm_compute|]. split; [absent|].
  split; [by vm_compute|]. split; [by vm_compute|].
  split; [absent|by vm_compute].
Qed.

(** Where C6 stops: a result that is free of fences but carries text after
    the closing root tag is cut back to the document by a second
    extraction. *)
Remark extract_html_trailer_cut_again :
  _extract_html block_with_trailer = lit "<!DOCTYPE html><html></html><!-- end -->" ∧
  _extract_html (_extract_html block_with_trailer) = lit "<!DOCTYPE html><html></html>".
Proof. split; by vm_compute. Qed.

(** C9. In a reply without fences that has a doctype, first at offset [i],
    and no closing root tag, [rfind] gives [-1] and the span would end at
    offset 6: when [i] is 6 or more the result is the whole reply, trimmed;
    when [i] is below 6 the result is the slice [t[i:6]], the first [6 - i]
    characters of the doctype keyword. *)
Theorem extract_html_doctype_without_close (t : str) (i : nat) :
  ¬ occurs t fence →
  first_occurrence t doctype i →
  ¬ occurs t close_html →
  ((6 ≤ i)%nat → _extract_html t = strip t) ∧
  ((i < 6)%nat →
     _extract_html t = slice t (Z.of_nat i) 6 ∧
     _extract_html t = take (6 - i) doctype).
Proof.
  intros Hno Hi Hclose. rewrite (extract_html_branch_doctype _ _ Hno Hi).
  rewrite (not_occurs_rfind _ _ Hclose). change (-1 + 7) with 6.
  destruct Hi as [Hi _]. split; intros Hlt.
  - destruct (Z.gtb_spec 6 (Z.of_nat i)); [lia|done].
  - destruct (Z.gtb_spec 6 (Z.of_nat i)); [|lia].
    pose proof (occurs_at_bound _ _ _ Hi) as Hb.
    change (length doctype) with 9%nat in Hb.
    change 6 with (Z.of_nat 6).
    rewrite slice_segment by lia.
    rewrite (segment_doctype_prefix _ _ Hi Hlt).
    split; apply doctype_prefix_stripped.
Qed.

Lemma extract_html_doctype_without_close_witness :
  _extract_html truncated_document = lit "<!DOCT" ∧
  _extract_html late_doctype = lit "Sorry: <!DOCTYPE html> was cut".
Proof.
  split.
  - destruct (extract_html_doctype_without_close truncated_document 0) as [_ H];
      [absent|first_at|absent|].
    destruct (H ltac:(lia)) as [_ ->]. by vm_compute.
  - destruct (extract_html_doctype_without_close late_doctype 8) as [H _];
      [absent|first_at|absent|].
    rewrite (H ltac:(lia)). by vm_compute.
Defined.



(** ** The synthesis prompt *)

Lemma code_prompt_sections analysis c :
  code_prompt analysis c =
    prompt_head analysis ++
    (lit "CUSTOMIZATIONS:" ++ nl ++ lit "- " ++ customization_text c) ++
    nl ++ nl ++ requirements.
Proof.
  unfold code_prompt, prompt_head. by rewrite <- !app_assoc.
Qed.

(** C1. With at least one field set, the list of customization lines is
    the rows of the table whose field is present, in the order of the
    table, each with the wording of the table; the section text is those
    lines joined by a line break and a dash, and the prompt carries it
    under the CUSTOMIZATIONS heading. *)
Theorem customization_lines_follow_fields (c : CustomizationRequest) (analysis : dict) :
  any_field_set c = true →
  custom_css c = present_lines c ∧
  customization_text c = join (nl ++ lit "- ") (present_lines c) ∧
  code_prompt analysis c =
    prompt_head analysis ++
    (lit "CUSTOMIZATIONS:" ++ nl ++ lit "- " ++ join (nl ++ lit "- ") (present_lines c)) ++
    nl ++ nl ++ requirements.
Proof.
  intros Hset.
  assert (custom_css c = present_lines c) as Hlines.
  { destruct c as [cs fs sp bs an ci].
    destruct cs, fs, sp, bs, an, ci; reflexivity. }
  assert (customization_text c = join (nl ++ lit "- ") (present_lines c)) as Htext.
  { unfold customization_text. rewrite Hlines.
    destruct (present_lines c) eqn:Hp; [|done].
    exfalso. clear Hlines. destruct c as [cs fs sp bs an ci].
    destruct cs, fs, sp, bs, an, ci; discriminate. }
  split; [done|]. split; [done|].
  by rewrite code_prompt_sections, Htext.
Qed.

Lemma customization_lines_follow_fields_witness :
  custom_css some_customizations =
    [lit "Use a Modern Dark color scheme"; lit "Use compact spacing";
     lit "Add smooth CSS animations and transitions";
     lit "Add a sticky navigation bar"] ∧
  customization_text some_customizations =
    lit "Use a Modern Dark color scheme" ++ nl ++
    lit "- Use compact spacing" ++ nl ++
    lit "- Add smooth CSS animations and transitions" ++ nl ++
    lit "- Add a sticky navigation bar".
Proof.
  destruct (customization_lines_follow_fields some_customizations ∅ eq_refl)
    as (H1 & H2 & _).
  split; [rewrite H1|rewrite H2]; by vm_compute.
Defined.

(** C2. With every string field empty and animations off, the section
    text is the literal ["Follow original design"], and that is what the
    prompt carries under the CUSTOMIZATIONS heading. *)
Theorem customization_default_text (c : CustomizationRequest) (analysis : dict) :
  color_scheme c = [] → font_size c = [] → spacing c = [] →
  button_style c = [] → animations c = false → custom_instructions c = [] →
  customization_text c = lit "Follow original design" ∧
  code_prompt analysis c =
    prompt_head analysis ++
    (lit "CUSTOMIZATIONS:" ++ nl ++ lit "- " ++ lit "Follow original design") ++
    nl ++ nl ++ requirements.
Proof.
  intros Hcs Hfs Hsp Hbs Han Hci.
  assert (customization_text c = lit "Follow original design") as Htext.
  { unfold customization_text, custom_css.
    by rewrite Hcs, Hfs, Hsp, Hbs, Han, Hci. }
  split; [done|]. by rewrite code_prompt_sections, Htext.
Qed.

Lemma customization_default_text_witness :
  customization_text no_customizations = lit "Follow original design".
Proof.
  exact (proj1 (customization_default_text no_customizations ∅
                  eq_refl eq_refl eq_refl eq_refl eq_refl eq_refl)).
Defined.

(** ** Service errors and the two-stage run *)

Section Orchestration.

Variable service : Service.

Lemma analyze_design_run image ci w :
  analyze_design service image ci w =
    let req := {| req_prompt := base_prompt ci; req_image := image |} in
    (match service (calls w) req with
     | Returns (Text t) => {[ "raw_analysis" := PyStr t; "success" := PyBool true ]}
     | Returns (TextRaises e) => failure e
     | Raises e => failure e
     end,
     {| calls := calls w ++ [req]; session_analysis := session_analysis w;
        session_generated_html := session_generated_html w; ui := ui w |}).
Proof.
  unfold analyze_design, generate_content, mbind, M_bind, mret, M_ret. simpl.
  by destruct (service _ _) as [[t|e]|e].
Qed.

Lemma generate_html_css_run analysis image c w :
  generate_html_css service analysis image c w =
    let req := {| req_prompt := code_prompt analysis c; req_image := image |} in
    (match service (calls w) req with
     | Returns (Text t) => {[ "html" := PyStr (_extract_html t); "success" := PyBool true ]}
     | Returns (TextRaises e) => failure e
     | Raises e => failure e
     end,
     {| calls := calls w ++ [req]; session_analysis := session_analysis w;
        session_generated_html := session_generated_html w; ui := ui w |}).
Proof.
  unfold generate_html_css, generate_content, mbind, M_bind, mret, M_ret. simpl.
  by destruct (service _ _) as [[t|e]|e].
Qed.

Lemma failure_lookup e :
  failure e !! "success" = Some (PyBool false) ∧
  failure e !! "error" = Some (PyStr (message e)) ∧
  failure e !! "raw_analysis" = None ∧
  failure e !! "html" = None.
Proof. unfold failure. repeat split; by simplify_map_eq. Qed.

Lemma prompts_differ ci analysis c : base_prompt ci ≠ code_prompt analysis c.
Proof.
  intros H. apply (f_equal (hd 0%N)) in H.
  unfold base_prompt in H. by destruct (truthy_str ci).
Qed.

End Orchestration.

(** C8. Each of the two agent calls sends exactly one request and always
    returns a result; the result holds the payload or an error message and
    never both; and when the service call raises, the result has success
    false and, as its error, the text of that exception, unchanged. *)
Theorem service_error_becomes_result (service : Service) (image : DesignImage)
    (ci : str) (analysis : dict) (c : CustomizationRequest) (w : App) :
  let areq := {| req_prompt := base_prompt ci; req_image := image |} in
  let greq := {| req_prompt := code_prompt analysis c; req_image := image |} in
  let a := analyze_design service image ci w in
  let g := generate_html_css service analysis image c w in
  (calls a.2 = calls w ++ [areq] ∧
   payload_xor_error "raw_analysis" a.1 ∧
   ∀ e, raised (service (calls w) areq) = Some e →
        a.1 !! "success" = Some (PyBool false) ∧
        a.1 !! "error" = Some (PyStr (message e))) ∧
  (calls g.2 = calls w ++ [greq] ∧
   payload_xor_error "html" g.1 ∧
   ∀ e, raised (service (calls w) greq) = Some e →
        g.1 !! "success" = Some (PyBool false) ∧
        g.1 !! "error" = Some (PyStr (message e))).
Proof.
  intros areq greq a g. subst a g.
  rewrite analyze_design_run, generate_html_css_run. simpl.
  fold areq greq.
  assert (Hfail : ∀ e, payload_xor_error "raw_analysis" (failure e) ∧
                       payload_xor_error "html" (failure e)).
  { intros e. destruct (failure_lookup e) as (_ & He & Hr & Hh).
    split; right; eauto. }
  split; (split; [done|]).
  - destruct (service (calls w) areq) as [[t|e]|e]; simpl.
    + split; [|done]. left. split; [eexists|]; by simplify_map_eq.
    + split; [apply Hfail|]. intros e' [= <-]. split; apply failure_lookup.
    + split; [apply Hfail|]. intros e' [= <-]. split; apply failure_lookup.
  - destruct (service (calls w) greq) as [[t|e]|e]; simpl.
    + split; [|done]. left. split; [eexists|]; by simplify_map_eq.
    + split; [apply Hfail|]. intros e' [= <-]. split; apply failure_lookup.
    + split; [apply Hfail|]. intros e' [= <-]. split; apply failure_lookup.
Qed.

Lemma service_error_becomes_result_witness :
  (analyze_design quota_service one_pixel [] fresh_app).1 !! "success"
    = Some (PyBool false) ∧
  (analyze_design quota_service one_pixel [] fresh_app).1 !! "error"
    = Some (PyStr (lit "quota exceeded")) ∧
  (generate_html_css quota_service ∅ one_pixel no_customizations fresh_app).1 !! "error"
    = Some (PyStr (lit "quota exceeded")).
Proof.
  destruct (service_error_becomes_result quota_service one_pixel [] ∅
              no_customizations fresh_app) as [(_ & _ & Ha) (_ & _ & Hg)].
  destruct (Ha {| message := lit "quota exceeded" |} eq_refl) as [Ha1 Ha2].
  destruct (Hg {| message := lit "quota exceeded" |} eq_refl) as [_ Hg2].
  exact (conj Ha1 (conj Ha2 Hg2)).
Defined.

(** C7, as amended. When the analysis result has success false, pressing
    the button ends the run at [st.stop()]: the only request sent is the
    analysis request, which is no synthesis prompt; the stored analysis and
    the stored document are as before; and the user is shown one error,
    the text ["❌ Analysis Error: "] followed by the error message of the
    analysis result, unchanged. *)
Theorem analysis_failure_stops_run (service : Service) (api_key : str)
    (image : DesignImage) (c : CustomizationRequest) (w : App) :
  let analysis := (analyze_design service image (custom_instructions c) w).1 in
  let run := generate_button service api_key (Some image) true c w in
  truthy_str api_key = true →
  truthy (analysis !! "success") = false →
  ∃ msg,
    analysis !! "error" = Some (PyStr msg) ∧
    run.1 = Stopped ∧
    calls run.2 = calls w ++ [analysis_request image c] ∧
    (∀ a c', req_prompt (analysis_request image c) ≠ code_prompt a c') ∧
    session_analysis run.2 = session_analysis w ∧
    session_generated_html run.2 = session_generated_html w ∧
    ui run.2 = ui w ++ [Spinner (magnifier ++ lit " Analyzing design...");
                        Error (cross_mark ++ lit " Analysis Error: " ++ msg)].
Proof.
  intros analysis run Hkey Hfail. subst analysis run.
  unfold generate_button. rewrite Hkey. cbn [negb].
  unfold mbind, M_bind, mret, M_ret, show.
  rewrite !analyze_design_run in *.
  cbn [fst snd calls ui session_analysis session_generated_html] in *.
  rewrite Hfail.
  cbn [negb fst snd calls ui session_analysis session_generated_html].
  assert (∃ e, service (calls w) (analysis_request image c) = Raises e ∨
               service (calls w) (analysis_request image c) = Returns (TextRaises e))
    as [e Hsvc].
  { unfold analysis_request.
    destruct (service _ _) as [[t|e]|e]; [|by eauto..].
    exfalso. revert Hfail. by simplify_map_eq. }
  exists (message e). fold (analysis_request image c).
  assert (match service (calls w) (analysis_request image c) with
          | Returns (Text t) => {[ "raw_analysis" := PyStr t; "success" := PyBool true ]}
          | Returns (TextRaises e) => failure e
          | Raises e => failure e
          end = failure e) as -> by (by destruct Hsvc as [-> | ->]).
  destruct (failure_lookup e) as (_ & He & _). rewrite He.
  repeat split; try done.
  - intros a c'. apply prompts_differ.
  - by rewrite <- app_assoc.
Qed.

Lemma analysis_failure_stops_run_witness :
  (generate_button quota_service some_key (Some one_pixel) true no_customizations fresh_app).1
    = Stopped ∧
  calls (generate_button quota_service some_key (Some one_pixel) true no_customizations fresh_app).2
    = [analysis_request one_pixel no_customizations] ∧
  ui (generate_button quota_service some_key (Some one_pixel) true no_customizations fresh_app).2
    = [Spinner (magnifier ++ lit " Analyzing design...");
       Error (cross_mark ++ lit " Analysis Error: quota exceeded")].
Proof.
  destruct (analysis_failure_stops_run quota_service some_key one_pixel
              no_customizations fresh_app eq_refl eq_refl)
    as (msg & Hmsg & Hctl & Hcalls & _ & _ & _ & Hui).
  assert (msg = lit "quota exceeded") as ->.
  { vm_compute in Hmsg. injection Hmsg as <-. by vm_compute. }
  exact (conj Hctl (conj Hcalls Hui)).
Defined.

(** C7 as stated fails on the wording of the error: for an analysis that
    fails with ["quota exceeded"], what the user is shown is
    ["❌ Analysis Error: quota exceeded"], not ["quota exceeded"] alone. *)
Lemma analysis_failure_stops_run_counterexample :
  (analyze_design quota_service one_pixel [] fresh_app).1 !! "error"
    = Some (PyStr (lit "quota exceeded")) ∧
  ui (generate_button quota_service some_key (Some one_pixel) true no_customizations fresh_app).2
    = [Spinner (magnifier ++ lit " Analyzing design...");
       Error (cross_mark ++ lit " Analysis Error: quota exceeded")] ∧
  Error (lit "quota exceeded")
    ∉ ui (generate_button quota_service some_key (Some one_pixel) true no_customizations fresh_app).2.
Proof.
  split; [by vm_compute|]. split; [by vm_compute|].
  intros Hin. vm_compute in Hin.
  repeat (apply elem_of_cons in Hin as [Hin|Hin]; [discriminate|]).
  by apply elem_of_nil in Hin.
Qed.

(** ** More on the extractor: what every result looks like *)

Section ExtractorResults.

Implicit Types s t u sub : str.

Lemma part_of_refl s : part_of s s.
Proof. exists [], []. by rewrite app_nil_r. Qed.

Lemma part_of_trans u s t : part_of u s → part_of s t → part_of u t.
Proof.
  intros (l1 & r1 & ->) (l2 & r2 & ->). exists (l2 ++ l1), (r1 ++ r2).
  by rewrite <- !app_assoc.
Qed.

Lemma part_of_length u s : part_of u s → (length u ≤ length s)%nat.
Proof. intros (l & r & ->). rewrite !length_app. lia. Qed.

Lemma part_of_occurs u s sub : part_of u s → occurs u sub → occurs s sub.
Proof.
  intros (l & r & ->) [i Hi]. eexists. by apply occurs_at_infix.
Qed.

Lemma segment_part_of s a b : part_of (segment s a b) s.
Proof.
  exists (take a s), (drop (b - a) (drop a s)). unfold segment.
  by rewrite take_drop, take_drop.
Qed.

Lemma slice_as_segment s a b :
  slice s a b =
    segment s (Z.to_nat (slice_index (Z.of_nat (length s)) a))
              (Z.to_nat (slice_index (Z.of_nat (length s)) b)).
Proof.
  unfold slice, segment. f_equal. unfold slice_index.
  destruct (Z.ltb_spec a 0), (Z.ltb_spec b 0); lia.
Qed.

Lemma slice_part_of s a b : part_of (slice s a b) s.
Proof. rewrite slice_as_segment. apply segment_part_of. Qed.

Lemma strip_part_of s : part_of (strip s) s.
Proof. destruct (strip_infix s) as (l & r & H). by exists l, r. Qed.

(** Whatever branch is taken, the result is a trimmed slice of the reply
    or the trimmed reply. *)
Lemma extract_html_within t : part_of (_extract_html t) t.
Proof.
  unfold _extract_html.
  repeat match goal with |- context [if ?b then _ else _] => destruct b end;
    first [apply strip_part_of
          |eapply part_of_trans; [apply strip_part_of|apply slice_part_of]].
Qed.

Lemma find_from_cases s sub start :
  (start ≤ length s)%nat →
  (none_from s sub start ∧ find s sub (Z.of_nat start) = -1) ∨
  (∃ j, first_occurrence_from s sub start j ∧
        find s sub (Z.of_nat start) = Z.of_nat j).
Proof.
  intros Hle. destruct (find_nat (drop start s) sub) as [k|] eqn:Hf.
  - right. exists (start + k)%nat.
    pose proof (first_occurrence_from_drop _ _ _ _ Hle Hf) as H.
    split; [done|by apply find_from_first].
  - left. pose proof (none_from_drop _ _ _ Hle Hf) as H.
    split; [done|by apply find_from_none].
Qed.

Lemma occurs_at_take s sub k m :
  occurs_at (take k s) sub m →
  occurs_at s sub m ∧ (m + length sub ≤ k)%nat.
Proof.
  intros H. split.
  - rewrite <- (take_drop k s).
    apply (occurs_at_infix [] (take k s) (drop k s) sub m) in H. by simpl in H.
  - apply occurs_at_bound in H. rewrite length_take in H. lia.
Qed.

Lemma occurs_at_in_segment s sub a b m :
  (a ≤ length s)%nat → occurs_at (segment s a b) sub m →
  occurs_at s sub (a + m) ∧ (m + length sub ≤ b - a)%nat.
Proof.
  intros Ha H. apply occurs_at_take in H as [H Hb].
  split; [by apply occurs_at_drop|done].
Qed.

(** Between the end of an opening marker and what [find] gives for the
    next fence, closed or not, there is no fence. *)
Lemma between_markers_no_fence t start :
  (start ≤ length t)%nat →
  ¬ occurs (slice t (Z.of_nat start) (find t fence (Z.of_nat start))) fence.
Proof.
  intros Hle [m Hm].
  destruct (find_from_cases t fence start Hle) as [[Hnone Hf]|(j & Hj & Hf)];
    rewrite Hf in Hm.
  - rewrite slice_to_minus_one, removelast_firstn_len in Hm by done.
    apply occurs_at_take in Hm as [Hm _].
    apply occurs_at_drop in Hm; [|done]. apply (Hnone (start + m)%nat); [lia|done].
  - destruct Hj as (Hsj & Hocc & Hmin).
    pose proof (occurs_at_bound _ _ _ Hocc) as Hb.
    rewrite slice_segment in Hm by lia.
    apply occurs_at_in_segment in Hm as [Hm Hlen]; [|done].
    apply Hmin in Hm; [|lia]. change (length fence) with 3%nat in Hlen. lia.
Qed.

Lemma result_has_no_fence t : ¬ occurs (_extract_html t) fence.
Proof.
  destruct (find_nat t fence_html) as [i|] eqn:Hhtml.
  - apply find_nat_Some in Hhtml.
    rewrite (extract_html_branch_tagged _ _ Hhtml).
    intros H. apply (part_of_occurs _ _ _ (strip_part_of _)) in H.
    revert H. apply between_markers_no_fence.
    destruct Hhtml as [Hocc _]. apply occurs_at_bound in Hocc.
    change (length fence_html) with 7%nat in Hocc. lia.
  - apply find_nat_None in Hhtml.
    destruct (find_nat t fence) as [i|] eqn:Hfence.
    + apply find_nat_Some in Hfence.
      rewrite (extract_html_branch_generic _ _ Hhtml Hfence).
      intros H. apply (part_of_occurs _ _ _ (strip_part_of _)) in H.
      revert H. apply between_markers_no_fence.
      destruct Hfence as [Hocc _]. apply occurs_at_bound in Hocc.
      change (length fence) with 3%nat in Hocc. lia.
    + apply find_nat_None in Hfence.
      intros H. apply Hfence.
      by apply (part_of_occurs _ _ _ (extract_html_within t)).
Qed.

End ExtractorResults.

Section TrimmedResults.

Implicit Types s t u sub : str.

Lemma head_rev_last s : head (rev s) = last s.
Proof.
  induction s as [|c s IH] using rev_ind; [done|].
  by rewrite rev_app_distr, last_snoc.
Qed.

Lemma strip_head s c : head (strip s) = Some c → isspace c = false.
Proof.
  intros H. pose proof (lstrip_rstrip (lstrip s) (lstrip_idemp s)) as Hfix.
  fold (strip s) in Hfix. apply lstrip_fixed in Hfix.
  destruct (strip s); by simplify_eq/=.
Qed.

Lemma strip_last s c : last (strip s) = Some c → isspace c = false.
Proof.
  intros H. rewrite <- head_rev_last in H.
  pose proof (rstrip_idemp (lstrip s)) as Hfix. fold (strip s) in Hfix.
  unfold rstrip in Hfix. apply (f_equal (@rev _)) in Hfix.
  rewrite !rev_involutive in Hfix. apply lstrip_fixed in Hfix.
  destruct (rev (strip s)); by simplify_eq/=.
Qed.

(** A string whose first and last characters are not whitespace is left
    alone by [strip]. *)
Lemma stripped_by_ends c d s u :
  isspace c = false → isspace d = false →
  s = c :: u → (∃ front, s = front ++ [d]) → stripped s.
Proof.
  intros Hc Hd -> [front Hfront]. unfold stripped, strip.
  assert (lstrip (c :: u) = c :: u) as -> by (simpl; by rewrite Hc).
  unfold rstrip. rewrite Hfront, rev_app_distr. simpl. rewrite Hd.
  change (d :: rev front) with (rev [d] ++ rev front).
  by rewrite <- rev_app_distr, rev_involutive.
Qed.

(** A substring that starts with a character which is no whitespace does
    not occur in a string of whitespace. *)
Lemma blank_has_no_word t c sub :
  Forall (λ x, isspace x = true) t → isspace c = false →
  ¬ occurs t (c :: sub).
Proof.
  intros Hblank Hc (i & pre & post & -> & _).
  apply Forall_app in Hblank as [_ Hblank]. simpl in Hblank.
  apply Forall_cons in Hblank as [Hx _]. congruence.
Qed.

Lemma lstrip_blank t : Forall (λ x, isspace x = true) t → lstrip t = [].
Proof.
  induction 1 as [|c t Hc _ IH]; [done|]. simpl. by rewrite Hc.
Qed.

(** A trimmed, fence-free string with no doctype, or with the doctype
    first and the closing root tag last, is returned as it is. *)
Lemma extract_html_fixed_point (o : str) :
  stripped o → ¬ occurs o fence →
  ¬ occurs o doctype ∨ bare_document o →
  _extract_html o = o.
Proof.
  intros Hs Hno [Hdoc|[[rest Hrest] [front Hfront]]].
  { by rewrite extract_html_branch_fallback. }
  assert (first_occurrence o doctype 0) as Hi.
  { split; [by exists [], rest|intros; lia]. }
  assert (last_occurrence o close_html (length front)) as Hj.
  { split; [exists front, []; by rewrite app_nil_r|].
    intros k Hk. apply occurs_at_bound in Hk.
    rewrite Hfront, length_app in Hk. lia. }
  rewrite (extract_html_branch_doctype _ _ Hno Hi).
  rewrite (last_occurrence_rfind _ _ _ Hj).
  destruct (Z.gtb_spec (Z.of_nat (length front) + 7) (Z.of_nat 0)); [|lia].
  replace (Z.of_nat (length front) + 7) with (Z.of_nat (length o))
    by (rewrite Hfront at 1; rewrite length_app; change (length close_html) with 7%nat; lia).
  rewrite slice_segment by lia. unfold segment.
  rewrite drop_0, Nat.sub_0_r, firstn_all. exact Hs.
Qed.

Lemma occurs_at_to_segment s sub a b k :
  occurs_at s sub k → (a ≤ k)%nat → (k + length sub ≤ b)%nat →
  occurs_at (segment s a b) sub (k - a).
Proof.
  intros (pre & post & -> & <-) Ha Hb. unfold segment.
  exists (drop a pre), (take (b - (length pre + length sub)) post).
  split; [|rewrite length_drop; lia].
  rewrite drop_app_le by done.
  rewrite take_app_ge by (rewrite length_drop; lia).
  f_equal. rewrite length_drop.
  rewrite take_app_ge by lia. f_equal. f_equal. lia.
Qed.

(** The doctype span of a trimmed, fence-free string is a bare document
    that a further extraction returns unchanged. *)
Lemma doctype_span_fixed o i j :
  ¬ occurs o fence → occurs_at o doctype i → occurs_at o close_html j →
  (i ≤ j)%nat →
  strip (segment o i (j + 7)) = segment o i (j + 7) ∧
  _extract_html (segment o i (j + 7)) = segment o i (j + 7).
Proof.
  intros Hno Hi Hj Hij.
  pose proof (occurs_at_bound _ _ _ Hj) as Hbj.
  change (length close_html) with 7%nat in Hbj.
  assert (i + 9 ≤ j + 7)%nat as Hspan.
  { destruct (decide (i + 9 ≤ j + 7)%nat) as [|Hn]; [done|exfalso].
    assert (i + 2 ≤ length o)%nat as Hlen by lia.
    pose proof (occurs_at_lookup _ _ _ 0 Hi) as H0.
    pose proof (occurs_at_lookup _ _ _ 1 Hi) as H1.
    pose proof (occurs_at_lookup _ _ _ 0 Hj) as K0.
    pose proof (occurs_at_lookup _ _ _ 1 Hj) as K1.
    change (length doctype) with 9%nat in *.
    change (length close_html) with 7%nat in *.
    specialize (H0 ltac:(lia)). specialize (H1 ltac:(lia)).
    specialize (K0 ltac:(lia)). specialize (K1 ltac:(lia)).
    replace (j + 0)%nat with j in K0 by lia.
    replace (i + 0)%nat with i in H0 by lia.
    destruct (decide (j = i)) as [->|Hne].
    - rewrite H1 in K1. vm_compute in K1. discriminate.
    - pose proof (occurs_at_lookup _ _ _ (j - i) Hi) as Hd.
      change (length doctype) with 9%nat in Hd.
      replace (i + (j - i))%nat with j in Hd by lia.
      rewrite K0 in Hd.
      assert (j - i = 1 ∨ j - i = 2 ∨ j - i = 3 ∨ j - i = 4 ∨ j - i = 5
              ∨ j - i = 6 ∨ j - i = 7 ∨ j - i = 8)%nat as Hc by lia.
      destruct Hc as [E|[E|[E|[E|[E|[E|[E|E]]]]]]]; rewrite E in Hd;
        (specialize (Hd ltac:(lia)); vm_compute in Hd; discriminate). }
  set (g := segment o i (j + 7)).
  assert (occurs_at g doctype 0) as Hg0.
  { replace 0%nat with (i - i)%nat by lia.
    apply occurs_at_to_segment; [done|lia|].
    change (length doctype) with 9%nat. lia. }
  assert (occurs_at g close_html (j - i)) as Hg1.
  { apply occurs_at_to_segment; [done|lia|].
    change (length close_html) with 7%nat. lia. }
  assert (length g = j + 7 - i)%nat as Hlg.
  { unfold g, segment. rewrite length_take, length_drop. lia. }
  destruct Hg0 as (pre0 & rest & Hg0 & Hpre0).
  destruct pre0; [|done]. simpl in Hg0.
  destruct Hg1 as (front & post & Hg1 & Hfront).
  assert (post = []) as ->.
  { apply (f_equal length) in Hg1. rewrite !length_app in Hg1.
    change (length close_html) with 7%nat in Hg1.
    destruct post; [done|simpl in Hg1; lia]. }
  rewrite app_nil_r in Hg1.
  assert (stripped g) as Hsg.
  { apply (stripped_by_ends 60%N 62%N g (lit "!DOCTYPE" ++ rest));
      [done|done|by rewrite Hg0|].
    exists (front ++ lit "</html"). rewrite Hg1, <- app_assoc. done. }
  split; [exact Hsg|].
  apply extract_html_fixed_point; [exact Hsg| |].
  - intros H. apply Hno. eapply part_of_occurs; [apply segment_part_of|exact H].
  - right. split; [by exists rest|by exists front].
Qed.

End TrimmedResults.

(** X1. No result of the extractor has a ["```"] in it, whatever the
    reply: on a result, both fence tests of the extractor are false. *)
Theorem extract_html_never_returns_fence (t : str) :
  ¬ occurs (_extract_html t) fence ∧
  contains (_extract_html t) fence_html = false ∧
  contains (_extract_html t) fence = false.
Proof.
  pose proof (result_has_no_fence t) as H.
  split; [done|]. split; apply contains_false; [|done].
  by apply no_fence_no_fence_html.
Qed.

(** X2. The result is always a run of consecutive characters of the reply:
    nothing is added or changed, and the result is never longer than the
    reply. *)
Theorem extract_html_is_part_of_reply (t : str) :
  part_of (_extract_html t) t ∧
  (length (_extract_html t) ≤ length t)%nat.
Proof.
  pose proof (extract_html_within t) as H.
  split; [done|by apply part_of_length].
Qed.

(** X3. The result never begins and never ends with a whitespace
    character. *)
Theorem extract_html_trimmed_ends (t : str) (c : char) :
  head (_extract_html t) = Some c ∨ last (_extract_html t) = Some c →
  isspace c = false.
Proof.
  pose proof (extract_html_stripped t) as Hs. unfold stripped in Hs.
  rewrite <- Hs. intros [H|H]; [by eapply strip_head|by eapply strip_last].
Qed.

Lemma extract_html_trimmed_ends_witness :
  head (_extract_html plain_prose) = Some 73%N ∧ isspace 73%N = false.
Proof.
  assert (H : head (_extract_html plain_prose) = Some 73%N) by (by vm_compute).
  exact (conj H (extract_html_trimmed_ends plain_prose 73%N (or_introl H))).
Defined.

(** X4. A reply that is empty or made of whitespace only gives the empty
    string. *)
Theorem extract_html_blank_reply (t : str) :
  Forall (λ c, isspace c = true) t → _extract_html t = [].
Proof.
  intros Hblank.
  rewrite extract_html_branch_fallback.
  - unfold strip. by rewrite (lstrip_blank _ Hblank).
  - by apply blank_has_no_word.
  - by apply blank_has_no_word.
Qed.

Lemma extract_html_blank_reply_witness :
  _extract_html (lit "  " ++ nl ++ lit " ") = [] ∧ _extract_html [] = [].
Proof.
  split.
  - apply extract_html_blank_reply. repeat constructor.
  - apply extract_html_blank_reply. constructor.
Defined.

(** X5. Extraction settles after two rounds: extracting from the result
    of a second extraction returns it unchanged, for every reply. *)
Theorem extract_html_settles (t : str) :
  _extract_html (_extract_html (_extract_html t)) = _extract_html (_extract_html t).
Proof.
  pose proof (extract_html_stripped t) as Hs.
  pose proof (result_has_no_fence t) as Hno.
  generalize dependent (_extract_html t). intros o Hs Hno.
  destruct (find_nat o doctype) as [i|] eqn:Hdoc.
  2:{ apply find_nat_None in Hdoc.
      rewrite (extract_html_fixed_point o) by eauto.
      apply extract_html_fixed_point; eauto. }
  apply find_nat_Some in Hdoc.
  pose proof (extract_html_branch_doctype _ _ Hno Hdoc) as E.
  pose proof (rfind_nat_spec o close_html) as Hr. unfold rfind in E.
  destruct Hdoc as [Hi _].
  pose proof (occurs_at_bound _ _ _ Hi) as Hbi.
  change (length doctype) with 9%nat in Hbi.
  destruct (rfind_nat o close_html) as [j|].
  - destruct Hr as [Hj _].
    pose proof (occurs_at_bound _ _ _ Hj) as Hbj.
    change (length close_html) with 7%nat in Hbj.
    destruct (Z.gtb_spec (Z.of_nat j + 7) (Z.of_nat i)).
    + assert (i ≤ j)%nat as Hij.
      { destruct (decide (i ≤ j)%nat) as [|Hn]; [done|].
        pose proof (close_before_doctype _ _ _ Hi Hj ltac:(lia)). lia. }
      replace (Z.of_nat j + 7) with (Z.of_nat (j + 7)) in E by lia.
      rewrite slice_segment in E by lia.
      destruct (doctype_span_fixed _ _ _ Hno Hi Hj Hij) as [Hfix1 Hfix2].
      rewrite Hfix1 in E. by rewrite E, Hfix2.
    + rewrite Hs in E. by rewrite !E.
  - change (-1 + 7) with 6 in E.
    destruct (Z.gtb_spec 6 (Z.of_nat i)).
    + change 6 with (Z.of_nat 6) in E.
      rewrite slice_segment in E by lia.
      rewrite (segment_doctype_prefix _ _ Hi) in E by lia.
      rewrite (doctype_prefix_stripped (6 - i)) in E. rewrite E.
      assert (i = 0 ∨ i = 1 ∨ i = 2 ∨ i = 3 ∨ i = 4 ∨ i = 5)%nat as Hc by lia.
      destruct Hc as [->|[->|[->|[->|[->| ->]]]]]; by vm_compute.
    + rewrite Hs in E. by rewrite !E.
Qed.

(** ** More on the prompts *)

Section Prompts.

Implicit Types a b : str.

Lemma join_ends_with_last sep (items : list str) (x : str) :
  ∃ front, join sep (items ++ [x]) = front ++ x.
Proof.
  induction items as [|y items [front IH]]; [by exists []|].
  exists (y ++ sep ++ front). simpl.
  destruct (items ++ [x]) as [|z rest] eqn:E.
  { by destruct items. }
  rewrite IH. by rewrite <- !app_assoc.
Qed.

Lemma custom_css_ends_with_instructions (c : CustomizationRequest) :
  truthy_str (custom_instructions c) = true →
  ∃ front, custom_css c = front ++ [custom_instructions c].
Proof.
  intros H. unfold custom_css. rewrite H. eauto.
Qed.

Lemma part_of_app_l (u s r : str) : part_of u s → part_of u (s ++ r).
Proof.
  intros (l & r' & ->). exists l, (r' ++ r). by rewrite <- !app_assoc.
Qed.

Lemma part_of_app_r (u s l : str) : part_of u s → part_of u (l ++ s).
Proof.
  intros (l' & r & ->). exists (l ++ l'), r. by rewrite <- !app_assoc.
Qed.

Lemma raw_analysis_of a :
  format (Some (default (PyStr []) (analysis_of a !! "raw_analysis"))) = a.
Proof. unfold analysis_of. by rewrite lookup_insert_eq. Qed.

Lemma instructions_in_text (c : CustomizationRequest) :
  part_of (custom_instructions c) (customization_text c).
Proof.
  destruct (truthy_str (custom_instructions c)) eqn:Htruthy.
  - destruct (custom_css_ends_with_instructions c Htruthy) as [front Hlines].
    unfold customization_text. rewrite Hlines.
    destruct (join_ends_with_last (nl ++ lit "- ") front (custom_instructions c))
      as [pre Hjoin].
    destruct (front ++ [custom_instructions c]) eqn:E; [by destruct front|].
    rewrite Hjoin. apply part_of_app_r, part_of_refl.
  - destruct (custom_instructions c); [|done]. by eexists [], _.
Qed.

Lemma literal_line (x y : str) : x ≠ [] → x ++ y ≠ [].
Proof. by destruct x. Qed.

Lemma join_starts_nonempty sep (x : str) (rest : list str) :
  x ≠ [] → join sep (x :: rest) ≠ [].
Proof. destruct x, rest; done. Qed.

Lemma base_prompt_length a :
  length (base_prompt a) =
    (length analysis_rubric + if truthy_str a then 20 + length a else 0)%nat.
Proof.
  unfold base_prompt. destruct (truthy_str a); [|lia].
  rewrite !length_app. change (length nl) with 1%nat.
  change (length (lit "ADDITIONAL FOCUS:")) with 17%nat. lia.
Qed.

End Prompts.

(** X6. Two different focus texts never give the same analysis prompt;
    every analysis prompt starts with the fixed rubric, and it is the
    rubric alone exactly when the focus text is empty. *)
Theorem base_prompt_tells_focus_apart (a b : str) :
  a ≠ b →
  base_prompt a ≠ base_prompt b ∧
  (∃ rest, base_prompt a = analysis_rubric ++ rest) ∧
  (base_prompt a = analysis_rubric ↔ a = []).
Proof.
  intros Hne. split; [|split].
  - intros Heq. apply Hne. clear Hne.
    pose proof (f_equal length Heq) as Hlen.
    rewrite !base_prompt_length in Hlen.
    unfold base_prompt in Heq.
    destruct a as [|x a], b as [|y b]; simpl in Hlen; try done; try lia.
    cbn [truthy_str] in Heq.
    apply app_inv_head in Heq. by do 4 apply app_inv_head in Heq.
  - unfold base_prompt. destruct (truthy_str a); [by eexists|].
    exists []. by rewrite app_nil_r.
  - split.
    + intros Heq. apply (f_equal length) in Heq.
      rewrite base_prompt_length in Heq. destruct a; [done|simpl in Heq; lia].
    + by intros ->.
Qed.

Lemma base_prompt_tells_focus_apart_witness :
  base_prompt [] ≠ base_prompt (lit "Focus on the navigation bar").
Proof.
  exact (proj1 (base_prompt_tells_focus_apart [] (lit "Focus on the navigation bar")
                  ltac:(discriminate))).
Defined.

(** X7. The customization section is never empty and never holds an empty
    line: every line that is appended has text, and without any line the
    fallback sentence stands in. *)
Theorem customization_text_never_empty (c : CustomizationRequest) :
  Forall (λ line, line ≠ []) (custom_css c) ∧ customization_text c ≠ [].
Proof.
  assert (Hlines : Forall (λ line : str, line ≠ []) (custom_css c)).
  { unfold custom_css.
    destruct (truthy_str (color_scheme c)), (truthy_str (font_size c)),
      (truthy_str (spacing c)), (truthy_str (button_style c)), (animations c),
      (truthy_str (custom_instructions c)) eqn:Hci;
      repeat first [apply Forall_nil_2 | apply Forall_cons_2 | apply Forall_app_2];
      try (by destruct (custom_instructions c)); by apply literal_line. }
  split; [done|]. unfold customization_text.
  destruct (custom_css c) as [|line rest]; [done|].
  apply Forall_cons in Hlines as [Hline _]. by apply join_starts_nonempty.
Qed.

(** X8. The analysis text and the free-text instructions reach the
    synthesis prompt character for character. *)
Theorem code_prompt_carries_texts (a : str) (c : CustomizationRequest) :
  part_of a (code_prompt (analysis_of a) c) ∧
  part_of (custom_instructions c) (code_prompt (analysis_of a) c) ∧
  part_of requirements (code_prompt (analysis_of a) c).
Proof.
  unfold code_prompt. rewrite raw_analysis_of. split; [|split].
  - do 5 apply part_of_app_r. apply part_of_app_l, part_of_refl.
  - do 11 apply part_of_app_r. apply part_of_app_l, instructions_in_text.
  - do 14 apply part_of_app_r. apply part_of_refl.
Qed.

(** ** More on the two-stage run *)

Section ButtonRun.

Variable service : Service.

Lemma analysis_of_lookup a :
  analysis_of a !! "success" = Some (PyBool true) ∧
  analysis_of a !! "raw_analysis" = Some (PyStr a) ∧
  analysis_of a !! "error" = None.
Proof. unfold analysis_of. repeat split; by simplify_map_eq. Qed.

Lemma generated_lookup h :
  ({[ "html" := PyStr h; "success" := PyBool true ]} : dict) !! "success"
    = Some (PyBool true) ∧
  ({[ "html" := PyStr h; "success" := PyBool true ]} : dict) !! "html"
    = Some (PyStr h).
Proof. split; by simplify_map_eq. Qed.

(** One press of the button with a key and an upload, spelled out by what
    the service answers to the two requests. *)
Lemma generate_button_run api_key image c w :
  truthy_str api_key = true →
  generate_button service api_key (Some image) true c w =
    match service (calls w) (analysis_request image c) with
    | Returns (Text a) =>
        match service (calls w ++ [analysis_request image c])
                (synthesis_request image a c) with
        | Returns (Text h) =>
            (Continues,
             {| calls := (calls w ++ [analysis_request image c])
                           ++ [synthesis_request image a c];
                session_analysis := Some (analysis_of a);
                session_generated_html := Some (PyStr (_extract_html h));
                ui := ((ui w ++ [analysing_spinner]) ++ [generating_spinner])
                        ++ [Success (check_mark ++ lit " HTML/CSS generated successfully!")] |})
        | Returns (TextRaises e) | Raises e =>
            (Continues,
             {| calls := (calls w ++ [analysis_request image c])
                           ++ [synthesis_request image a c];
                session_analysis := Some (analysis_of a);
                session_generated_html := session_generated_html w;
                ui := ((ui w ++ [analysing_spinner]) ++ [generating_spinner])
                        ++ [Error (cross_mark ++ lit " Generation Error: " ++ message e)] |})
        end
    | Returns (TextRaises e) | Raises e =>
        (Stopped,
         {| calls := calls w ++ [analysis_request image c];
            session_analysis := session_analysis w;
            session_generated_html := session_generated_html w;
            ui := (ui w ++ [analysing_spinner])
                    ++ [Error (cross_mark ++ lit " Analysis Error: " ++ message e)] |})
    end.
Proof.
  intros Hkey. unfold generate_button. rewrite Hkey. cbn [negb].
  unfold mbind, M_bind, mret, M_ret, show, set_analysis, set_generated_html.
  rewrite analyze_design_run.
  cbn [fst snd calls ui session_analysis session_generated_html].
  fold (analysis_request image c). fold analysing_spinner generating_spinner.
  destruct (service (calls w) (analysis_request image c)) as [[a|e]|e].
  - fold (analysis_of a).
    destruct (analysis_of_lookup a) as (Hs & _ & _). rewrite Hs.
    cbn [truthy negb].
    rewrite generate_html_css_run.
    cbn [fst snd calls ui session_analysis session_generated_html].
    fold (synthesis_request image a c).
    destruct (service _ (synthesis_request image a c)) as [[h|e]|e].
    + destruct (generated_lookup (_extract_html h)) as [Hs' Hh].
      rewrite Hs', Hh. by cbn [truthy].
    + destruct (failure_lookup e) as (Hs' & He & _). rewrite Hs', He.
      by cbn [truthy format].
    + destruct (failure_lookup e) as (Hs' & He & _). rewrite Hs', He.
      by cbn [truthy format].
  - destruct (failure_lookup e) as (Hs & He & _). rewrite Hs, He.
    by cbn [truthy negb format].
  - destruct (failure_lookup e) as (Hs & He & _). rewrite Hs, He.
    by cbn [truthy negb format].
Qed.

Lemma analysis_of_nonempty a : analysis_of a ≠ ∅.
Proof. unfold analysis_of. apply insert_non_empty. Qed.

End ButtonRun.

(** X9. When both service calls answer with text, the run sends the
    analysis request and then the synthesis request, whose prompt holds the
    first answer character for character; it stores the analysis and, as
    the document, the extraction of the second answer, and ends on the
    success notice. *)
Theorem both_stages_succeed (service : Service) (api_key : str)
    (image : DesignImage) (c : CustomizationRequest) (w : App) (a h : str) :
  truthy_str api_key = true →
  service (calls w) (analysis_request image c) = Returns (Text a) →
  service (calls w ++ [analysis_request image c]) (synthesis_request image a c)
    = Returns (Text h) →
  let run := generate_button service api_key (Some image) true c w in
  run.1 = Continues ∧
  calls run.2 = calls w ++ [analysis_request image c; synthesis_request image a c] ∧
  part_of a (req_prompt (synthesis_request image a c)) ∧
  session_analysis run.2 = Some (analysis_of a) ∧
  session_generated_html run.2 = Some (PyStr (_extract_html h)) ∧
  ui run.2 = ui w ++ [analysing_spinner; generating_spinner;
                      Success (check_mark ++ lit " HTML/CSS generated successfully!")].
Proof.
  intros Hkey H1 H2 run. subst run.
  rewrite generate_button_run, H1, H2 by done. cbn [fst snd calls ui
    session_analysis session_generated_html].
  repeat split; try by rewrite <- !app_assoc.
  unfold synthesis_request. cbn [req_prompt].
  unfold code_prompt. rewrite raw_analysis_of.
  do 5 apply part_of_app_r. apply part_of_app_l, part_of_refl.
Qed.

Lemma both_stages_succeed_witness :
  session_generated_html
    (generate_button (two_step_service (lit "Layout: header+footer") prose_and_tagged_block)
       some_key (Some one_pixel) true no_customizations fresh_app).2
  = Some (PyStr (lit "<p>hi</p>")).
Proof.
  destruct (both_stages_succeed
              (two_step_service (lit "Layout: header+footer") prose_and_tagged_block)
              some_key one_pixel no_customizations fresh_app
              (lit "Layout: header+footer") prose_and_tagged_block
              eq_refl eq_refl eq_refl) as (_ & _ & _ & _ & H & _).
  rewrite H. by vm_compute.
Defined.

(** X10. When the analysis answers and the synthesis call raises, the run
    goes on to its end: the new analysis is stored, the document stored
    before stays as it was, and the user is shown
    ["❌ Generation Error: "] followed by the text of the exception. *)
Theorem synthesis_failure_keeps_document (service : Service) (api_key : str)
    (image : DesignImage) (c : CustomizationRequest) (w : App) (a : str)
    (e : Exception) :
  truthy_str api_key = true →
  service (calls w) (analysis_request image c) = Returns (Text a) →
  raised (service (calls w ++ [analysis_request image c])
            (synthesis_request image a c)) = Some e →
  let run := generate_button service api_key (Some image) true c w in
  run.1 = Continues ∧
  calls run.2 = calls w ++ [analysis_request image c; synthesis_request image a c] ∧
  session_analysis run.2 = Some (analysis_of a) ∧
  session_generated_html run.2 = session_generated_html w ∧
  ui run.2 = ui w ++ [analysing_spinner; generating_spinner;
                      Error (cross_mark ++ lit " Generation Error: " ++ message e)].
Proof.
  intros Hkey H1 H2 run. subst run.
  rewrite generate_button_run, H1 by done.
  destruct (service _ (synthesis_request image a c)) as [[h|e']|e'];
    simplify_eq/=; repeat split; by rewrite <- !app_assoc.
Qed.

Lemma synthesis_failure_keeps_document_witness :
  session_generated_html
    (generate_button (second_call_fails (lit "new analysis")) some_key
       (Some one_pixel) true no_customizations app_with_document).2
  = Some (PyStr (lit "<p>old</p>")) ∧
  session_analysis
    (generate_button (second_call_fails (lit "new analysis")) some_key
       (Some one_pixel) true no_customizations app_with_document).2
  = Some (analysis_of (lit "new analysis")).
Proof.
  destruct (synthesis_failure_keeps_document
              (second_call_fails (lit "new analysis")) some_key one_pixel
              no_customizations app_with_document (lit "new analysis")
              {| message := lit "quota exceeded" |} eq_refl eq_refl eq_refl)
    as (_ & _ & Ha & Hh & _).
  exact (conj Hh Ha).
Defined.

(** X11. Whatever the inputs, one run of the handler adds at most two
    requests to those sent so far and only adds to what is shown.  It
    sends nothing, stores nothing and runs on unless there is a key, an
    upload and a click; and when it does send, the first request is the
    analysis request and every request carries the uploaded image. *)
Theorem generate_button_call_discipline (service : Service) (api_key : str)
    (uploaded_file : option DesignImage) (clicked : bool)
    (c : CustomizationRequest) (w : App) :
  let run := generate_button service api_key uploaded_file clicked c w in
  ∃ new shown,
    calls run.2 = calls w ++ new ∧
    ui run.2 = ui w ++ shown ∧
    (length new ≤ 2)%nat ∧
    ((new = [] ∧ run.1 = Continues ∧
      session_analysis run.2 = session_analysis w ∧
      session_generated_html run.2 = session_generated_html w) ∨
     (truthy_str api_key = true ∧ clicked = true ∧
      ∃ image, uploaded_file = Some image ∧
               head new = Some (analysis_request image c) ∧
               Forall (λ r, req_image r = image) new)).
Proof.
  intros run. subst run.
  destruct (truthy_str api_key) eqn:Hkey.
  2:{ unfold generate_button. rewrite Hkey. eexists [], [_].
      rewrite app_nil_r. repeat split; simpl; eauto. }
  destruct uploaded_file as [image|].
  2:{ unfold generate_button. rewrite Hkey. eexists [], [_].
      rewrite app_nil_r. repeat split; simpl; eauto. }
  destruct clicked.
  2:{ unfold generate_button. rewrite Hkey. eexists [], [].
      rewrite !app_nil_r. repeat split; simpl; eauto. }
  rewrite generate_button_run by done.
  destruct (service (calls w) (analysis_request image c)) as [[a|e]|e].
  - destruct (service _ (synthesis_request image a c)) as [[h|e]|e];
      (eexists [_; _], [_; _; _];
       cbn [fst snd calls ui session_analysis session_generated_html];
       rewrite <- !app_assoc;
       repeat split; [simpl; lia|]; right; repeat split;
       eexists; repeat split; repeat constructor).
  - eexists [_], [_; _].
    cbn [fst snd calls ui session_analysis session_generated_html].
    rewrite <- !app_assoc.
    repeat split; [simpl; lia|]; right; repeat split;
      eexists; repeat split; repeat constructor.
  - eexists [_], [_; _].
    cbn [fst snd calls ui session_analysis session_generated_html].
    rewrite <- !app_assoc.
    repeat split; [simpl; lia|]; right; repeat split;
      eexists; repeat split; repeat constructor.
Qed.

(** X12. The stored document changes only on a run that ends with the
    success notice, and then to a result of the extractor; the stored
    analysis changes only to a successful analysis, never to a failure
    result. *)
Theorem generate_button_stores_only_successes (service : Service)
    (api_key : str) (uploaded_file : option DesignImage) (clicked : bool)
    (c : CustomizationRequest) (w : App) :
  let run := generate_button service api_key uploaded_file clicked c w in
  (session_generated_html run.2 = session_generated_html w ∨
   ∃ h, session_generated_html run.2 = Some (PyStr (_extract_html h)) ∧
        last (ui run.2)
          = Some (Success (check_mark ++ lit " HTML/CSS generated successfully!")) ∧
        run.1 = Continues) ∧
  (session_analysis run.2 = session_analysis w ∨
   ∃ a, session_analysis run.2 = Some (analysis_of a)).
Proof.
  intros run. subst run.
  destruct (truthy_str api_key) eqn:Hkey.
  2:{ unfold generate_button. rewrite Hkey. split; by left. }
  destruct uploaded_file as [image|].
  2:{ unfold generate_button. rewrite Hkey. split; by left. }
  destruct clicked.
  2:{ unfold generate_button. rewrite Hkey. split; by left. }
  rewrite generate_button_run by done.
  destruct (service (calls w) (analysis_request image c)) as [[a|e]|e];
    [|split; by left..].
  destruct (service _ (synthesis_request image a c)) as [[h|e]|e];
    cbn [fst snd calls ui session_analysis session_generated_html];
    (split; [|by eauto]); [|by left..].
  right. exists h. by rewrite last_snoc.
Qed.

(** ** The results section after a run *)

Section ResultsSection.

Lemma results_section_of_document (w : App) (d : str) :
  session_generated_html w = Some (PyStr d) → d ≠ [] →
  HtmlComponent (PyStr d) 600 true ∈ results_section w ∧
  DownloadButton ([128229%N] ++ lit " Download HTML File") (PyStr d)
    (lit "generated_page.html") (lit "text/html") ∈ results_section w ∧
  CodeBlock (PyStr d) (lit "html") ∈ results_section w ∧
  ∃ top, results_section w = top ++ analysis_tab w.
Proof.
  intros Hdoc Hd. unfold results_section. rewrite Hdoc.
  assert (truthy (Some (PyStr d)) = true) as -> by (by destruct d).
  repeat split; [..|by eexists];
    apply elem_of_app; left;
    repeat (apply elem_of_cons; first [by left|right]).
Qed.

Lemma results_section_empty_document (w : App) :
  session_generated_html w = Some (PyStr []) → results_section w = [].
Proof. intros Hdoc. unfold results_section. by rewrite Hdoc. Qed.

Lemma analysis_tab_of_analysis (w : App) (a : str) :
  session_analysis w = Some (analysis_of a) →
  analysis_tab w =
    [Subheader (lit "Design Analysis");
     TextArea (lit "AI Analysis of Your Design") (PyStr a) 400].
Proof.
  intros Ha. unfold analysis_tab. rewrite Ha. cbn [truthy_dict].
  rewrite bool_decide_eq_true_2 by apply analysis_of_nonempty.
  destruct (analysis_of_lookup a) as (_ & -> & _). done.
Qed.

Lemma button_then_results_failed_synthesis (service : Service) api_key image c w a e :
  truthy_str api_key = true →
  service (calls w) (analysis_request image c) = Returns (Text a) →
  raised (service (calls w ++ [analysis_request image c])
            (synthesis_request image a c)) = Some e →
  button_then_results service api_key (Some image) true c w =
    let w1 :=
      {| calls := (calls w ++ [analysis_request image c])
                    ++ [synthesis_request image a c];
         session_analysis := Some (analysis_of a);
         session_generated_html := session_generated_html w;
         ui := ((ui w ++ [analysing_spinner]) ++ [generating_spinner])
                 ++ [Error (cross_mark ++ lit " Generation Error: " ++ message e)] |} in
    (results_section w1, w1).
Proof.
  intros Hkey H1 H2. unfold button_then_results.
  rewrite generate_button_run, H1 by done.
  by destruct (service _ (synthesis_request image a c)) as [[h|e']|e'];
    simplify_eq/=.
Qed.

End ResultsSection.

(** X13. After a run in which both calls answer and the extraction is not
    empty, the results section shows that one document in the preview, in
    the download (as generated_page.html, text/html) and in the code view,
    and the analysis text of this run in the analysis tab. *)
Theorem results_show_new_document (service : Service) (api_key : str)
    (image : DesignImage) (c : CustomizationRequest) (w : App) (a h : str) :
  truthy_str api_key = true →
  service (calls w) (analysis_request image c) = Returns (Text a) →
  service (calls w ++ [analysis_request image c]) (synthesis_request image a c)
    = Returns (Text h) →
  _extract_html h ≠ [] →
  let page := (button_then_results service api_key (Some image) true c w).1 in
  HtmlComponent (PyStr (_extract_html h)) 600 true ∈ page ∧
  DownloadButton ([128229%N] ++ lit " Download HTML File")
    (PyStr (_extract_html h)) (lit "generated_page.html") (lit "text/html") ∈ page ∧
  CodeBlock (PyStr (_extract_html h)) (lit "html") ∈ page ∧
  TextArea (lit "AI Analysis of Your Design") (PyStr a) 400 ∈ page.
Proof.
  intros Hkey H1 H2 Hdoc page. subst page. unfold button_then_results.
  rewrite generate_button_run, H1, H2 by done. cbn [fst].
  match goal with |- context [results_section ?w'] => set (w1 := w') end.
  destruct (results_section_of_document w1 (_extract_html h) eq_refl Hdoc)
    as (Hp & Hd & Hc & top & Htop).
  repeat split; try done.
  rewrite Htop, (analysis_tab_of_analysis w1 a eq_refl).
  apply elem_of_app; right. apply elem_of_cons; right. apply elem_of_cons; by left.
Qed.

Lemma results_show_new_document_witness :
  HtmlComponent (PyStr (lit "<p>hi</p>")) 600 true
    ∈ (button_then_results
         (two_step_service (lit "Layout: header+footer") prose_and_tagged_block)
         some_key (Some one_pixel) true no_customizations fresh_app).1.
Proof.
  destruct (results_show_new_document
              (two_step_service (lit "Layout: header+footer") prose_and_tagged_block)
              some_key one_pixel no_customizations fresh_app
              (lit "Layout: header+footer") prose_and_tagged_block
              eq_refl eq_refl eq_refl ltac:(by vm_compute)) as (H & _).
  replace (PyStr (lit "<p>hi</p>"))
    with (PyStr (_extract_html prose_and_tagged_block)) by (by vm_compute).
  exact H.
Defined.

(** X14. When both calls answer but the extraction is empty (a blank
    second answer, say), the run still ends on the success notice, the
    stored document becomes the empty string, replacing whatever was
    stored, and the results section shows nothing. *)
Theorem empty_document_hides_results (service : Service) (api_key : str)
    (image : DesignImage) (c : CustomizationRequest) (w : App) (a h : str) :
  truthy_str api_key = true →
  service (calls w) (analysis_request image c) = Returns (Text a) →
  service (calls w ++ [analysis_request image c]) (synthesis_request image a c)
    = Returns (Text h) →
  _extract_html h = [] →
  let run := button_then_results service api_key (Some image) true c w in
  run.1 = [] ∧
  session_generated_html run.2 = Some (PyStr []) ∧
  last (ui run.2)
    = Some (Success (check_mark ++ lit " HTML/CSS generated successfully!")).
Proof.
  intros Hkey H1 H2 Hdoc run. subst run. unfold button_then_results.
  rewrite generate_button_run, H1, H2, Hdoc by done.
  cbn [fst snd session_generated_html ui].
  split; [by apply results_section_empty_document|].
  split; [done|by rewrite last_snoc].
Qed.

Lemma empty_document_hides_results_witness :
  (button_then_results (two_step_service (lit "A") (lit "   ")) some_key
     (Some one_pixel) true no_customizations app_with_document).1 = [] ∧
  session_generated_html
    (button_then_results (two_step_service (lit "A") (lit "   ")) some_key
       (Some one_pixel) true no_customizations app_with_document).2
  = Some (PyStr []).
Proof.
  destruct (empty_document_hides_results
              (two_step_service (lit "A") (lit "   ")) some_key one_pixel
              no_customizations app_with_document (lit "A") (lit "   ")
              eq_refl eq_refl eq_refl ltac:(by vm_compute)) as (H1 & H2 & _).
  exact (conj H1 H2).
Defined.

(** X15. When the analysis answers and the synthesis call raises while a
    document from an earlier run is stored, the results section shows that
    earlier document next to the analysis text of the present run. *)
Theorem failed_synthesis_shows_earlier_document (service : Service)
    (api_key : str) (image : DesignImage) (c : CustomizationRequest) (w : App)
    (a old : str) (e : Exception) :
  truthy_str api_key = true →
  service (calls w) (analysis_request image c) = Returns (Text a) →
  raised (service (calls w ++ [analysis_request image c])
            (synthesis_request image a c)) = Some e →
  session_generated_html w = Some (PyStr old) → old ≠ [] →
  let page := (button_then_results service api_key (Some image) true c w).1 in
  HtmlComponent (PyStr old) 600 true ∈ page ∧
  TextArea (lit "AI Analysis of Your Design") (PyStr a) 400 ∈ page.
Proof.
  intros Hkey H1 H2 Hold Hne page. subst page.
  rewrite (button_then_results_failed_synthesis _ _ _ _ _ _ _ Hkey H1 H2).
  cbn [fst].
  match goal with |- context [results_section ?w'] => set (w1 := w') end.
  destruct (results_section_of_document w1 old Hold Hne) as (Hp & _ & _ & top & Htop).
  split; [done|].
  rewrite Htop, (analysis_tab_of_analysis w1 a eq_refl).
  apply elem_of_app; right. apply elem_of_cons; right. apply elem_of_cons; by left.
Qed.

Lemma failed_synthesis_shows_earlier_document_witness :
  HtmlComponent (PyStr (lit "<p>old</p>")) 600 true
    ∈ (button_then_results (second_call_fails (lit "new analysis")) some_key
         (Some one_pixel) true no_customizations app_with_document).1 ∧
  TextArea (lit "AI Analysis of Your Design") (PyStr (lit "new analysis")) 400
    ∈ (button_then_results (second_call_fails (lit "new analysis")) some_key
         (Some one_pixel) true no_customizations app_with_document).1.
Proof.
  exact (failed_synthesis_shows_earlier_document
           (second_call_fails (lit "new analysis")) some_key one_pixel
           no_customizations app_with_document (lit "new analysis")
           (lit "<p>old</p>") {| message := lit "quota exceeded" |}
           eq_refl eq_refl eq_refl eq_refl ltac:(discriminate)).
Defined.

(** X16. When the analysis call raises, the script stops at the handler:
    the results section is not shown in that run, although a document
    stored by an earlier run stays stored. *)
Theorem failed_analysis_hides_results (service : Service) (api_key : str)
    (image : DesignImage) (c : CustomizationRequest) (w : App) (e : Exception) :
  truthy_str api_key = true →
  raised (service (calls w) (analysis_request image c)) = Some e →
  let run := button_then_results service api_key (Some image) true c w in
  run.1 = [] ∧
  session_generated_html run.2 = session_generated_html w ∧
  session_analysis run.2 = session_analysis w.
Proof.
  intros Hkey H1 run. subst run. unfold button_then_results.
  rewrite generate_button_run by done.
  by destruct (service (calls w) (analysis_request image c)) as [[a|e']|e'];
    simplify_eq/=.
Qed.

Lemma failed_analysis_hides_results_witness :
  (button_then_results quota_service some_key (Some one_pixel) true
     no_customizations app_with_document).1 = [] ∧
  session_generated_html
    (button_then_results quota_service some_key (Some one_pixel) true
       no_customizations app_with_document).2
  = Some (PyStr (lit "<p>old</p>")).
Proof.
  destruct (failed_analysis_hides_results quota_service some_key one_pixel
              no_customizations app_with_document
              {| message := lit "quota exceeded" |} eq_refl eq_refl)
    as (H1 & H2 & _).
  exact (conj H1 H2).
Defined.

(** ** The customizations built from the select boxes *)

Section SelectBoxes.

Lemma lower_empty (s : str) : lower s = [] ↔ s = [].
Proof. unfold lower. split; [apply fmap_nil_inv|by intros ->]. Qed.

Lemma option_not_empty (options : list str) (s : str) :
  forallb truthy_str options = true → s ∈ options → s ≠ [].
Proof.
  intros Hall Hin ->. rewrite forallb_forall in Hall.
  apply list_elem_of_In, Hall in Hin. done.
Qed.

Lemma font_size_field (fs : str) :
  fs ∈ font_size_options →
  ∃ f, (if decide (fs ≠ lit "Standard") then lower <$> head (split fs)
        else Some []) = Some f ∧
       (f = [] ↔ fs = lit "Standard") ∧
       f ∈ [[]; lit "small"; lit "large"; lit "extra"] ∧
       (∃ word rest,
          fs = word ++ rest ∧ word ≠ [] ∧
          Forall (λ x, isspace x = false) word ∧
          match rest with [] => True | x :: _ => isspace x = true end ∧
          (fs ≠ lit "Standard" → f = lower word)) ∧
       (fs = lit "Small (Mobile-friendly)" → f = lit "small") ∧
       (fs = lit "Large (Accessibility)" → f = lit "large") ∧
       (fs = lit "Extra Large" → f = lit "extra").
Proof.
  unfold font_size_options. rewrite !elem_of_cons, elem_of_nil.
  intros [->|[->|[->|[->|[]]]]].
  - exists []. split; [by vm_compute|]. split; [done|].
    split; [rewrite !elem_of_cons; tauto|].
    split; [|repeat split; intros H; by vm_compute in H].
    exists (lit "Standard"), []. split; [by vm_compute|].
    split; [by vm_compute|]. split; [by vm_compute; repeat constructor|].
    split; [done|]. by intros [].
  - exists (lit "small"). split; [by vm_compute|].
    split; [split; intros H; by vm_compute in H|].
    split; [rewrite !elem_of_cons; tauto|].
    split; [|repeat split; intros H; by vm_compute in H].
    exists (lit "Small"), (lit " (Mobile-friendly)"). split; [by vm_compute|].
    split; [by vm_compute|]. split; [by vm_compute; repeat constructor|].
    split; [by vm_compute|]. intros _. by vm_compute.
  - exists (lit "large"). split; [by vm_compute|].
    split; [split; intros H; by vm_compute in H|].
    split; [rewrite !elem_of_cons; tauto|].
    split; [|repeat split; intros H; by vm_compute in H].
    exists (lit "Large"), (lit " (Accessibility)"). split; [by vm_compute|].
    split; [by vm_compute|]. split; [by vm_compute; repeat constructor|].
    split; [by vm_compute|]. intros _. by vm_compute.
  - exists (lit "extra"). split; [by vm_compute|].
    split; [split; intros H; by vm_compute in H|].
    split; [rewrite !elem_of_cons; tauto|].
    split; [|repeat split; intros H; by vm_compute in H].
    exists (lit "Extra"), (lit " Large"). split; [by vm_compute|].
    split; [by vm_compute|]. split; [by vm_compute; repeat constructor|].
    split; [by vm_compute|]. intros _. by vm_compute.
Qed.

End SelectBoxes.

(** X17. For every choice the four select boxes offer, building the
    customizations succeeds; a field is empty exactly when the first
    option (keep the original) is chosen; otherwise the color scheme is
    the option as it is, spacing and button style are the option in lower
    case, and the font size is the first word of the option (its
    characters up to the first whitespace) in lower case: small for
    "Small (Mobile-friendly)", large for "Large (Accessibility)", extra
    for "Extra Large".  The checkbox and the free text pass through
    unchanged. *)
Theorem prepare_customizations_of_options (cs fs sp bs : str) (an : bool)
    (ci : str) :
  cs ∈ color_scheme_options → fs ∈ font_size_options →
  sp ∈ spacing_options → bs ∈ button_style_options →
  ∃ c, prepare_customizations cs fs sp bs an ci = Some c ∧
    (color_scheme c = [] ↔ cs = lit "Original (from design)") ∧
    (font_size c = [] ↔ fs = lit "Standard") ∧
    (spacing c = [] ↔ sp = lit "Normal") ∧
    (button_style c = [] ↔ bs = lit "Original") ∧
    color_scheme c ∈ [[]; cs] ∧
    font_size c ∈ [[]; lit "small"; lit "large"; lit "extra"] ∧
    spacing c ∈ [[]; lower sp] ∧
    button_style c ∈ [[]; lower bs] ∧
    animations c = an ∧ custom_instructions c = ci ∧
    (∃ word rest,
       fs = word ++ rest ∧ word ≠ [] ∧
       Forall (λ x, isspace x = false) word ∧
       match rest with [] => True | x :: _ => isspace x = true end ∧
       (fs ≠ lit "Standard" → font_size c = lower word)) ∧
    (fs = lit "Small (Mobile-friendly)" → font_size c = lit "small") ∧
    (fs = lit "Large (Accessibility)" → font_size c = lit "large") ∧
    (fs = lit "Extra Large" → font_size c = lit "extra").
Proof.
  intros Hcs Hfs Hsp Hbs.
  apply (option_not_empty color_scheme_options cs eq_refl) in Hcs.
  apply (option_not_empty spacing_options sp eq_refl) in Hsp.
  apply (option_not_empty button_style_options bs eq_refl) in Hbs.
  destruct (font_size_field fs Hfs)
    as (f & Hf & Hfe & Hfin & Hword & Hsmall & Hlarge & Hextra).
  unfold prepare_customizations. rewrite Hf. eexists. split; [done|].
  cbn [color_scheme font_size spacing button_style animations custom_instructions].
  assert (Hiff : ∀ (x first y : str),
            x ≠ [] → (y = [] ↔ x = []) →
            (if decide (x ≠ first) then y else []) = [] ↔ x = first).
  { intros x first y Hx Hy. destruct (decide (x ≠ first)) as [Hd|Hd].
    - split; intros E; [apply Hy in E|]; by subst.
    - split; [intros _; by apply dec_stable|done]. }
  assert (Hmem : ∀ (x first y : str),
            (if decide (x ≠ first) then y else []) ∈ [[]; y]).
  { intros x first y. destruct (decide (x ≠ first)); rewrite !elem_of_cons; tauto. }
  split; [by apply Hiff|]. split; [exact Hfe|].
  split; [apply Hiff; [done|apply lower_empty]|].
  split; [apply Hiff; [done|apply lower_empty]|].
  split; [apply Hmem|]. split; [exact Hfin|].
  split; [apply Hmem|]. split; [apply Hmem|].
  split; [done|]. split; [done|].
  split; [exact Hword|]. split; [exact Hsmall|]. split; [exact Hlarge|exact Hextra].
Qed.

Lemma prepare_customizations_of_options_witness :
  ∃ c, prepare_customizations (lit "Modern Dark") (lit "Extra Large")
         (lit "Normal") (lit "Flat Modern") true [] = Some c ∧
       custom_css c =
         [lit "Use a Modern Dark color scheme"; lit "Use extra font sizes";
          lit "Style buttons as flat modern";
          lit "Add smooth CSS animations and transitions"].
Proof.
  destruct (prepare_customizations_of_options (lit "Modern Dark")
              (lit "Extra Large") (lit "Normal") (lit "Flat Modern") true [])
    as (c & Hc & _);
    [unfold color_scheme_options|unfold font_size_options
    |unfold spacing_options|unfold button_style_options|];
    [rewrite !elem_of_cons; tauto..|].
  exists c. split; [exact Hc|].
  vm_compute in Hc. injection Hc as <-. by vm_compute.
Defined.

(** X18. Whenever the synthesis result holds a document, the service
    answered with text, the result has success true, and the document is
    a trimmed run of consecutive characters of that answer with no
    ["```"] in it. *)
Theorem generated_html_is_clean (service : Service) (analysis : dict)
    (image : DesignImage) (c : CustomizationRequest) (w : App) (h : str) :
  (generate_html_css service analysis image c w).1 !! "html" = Some (PyStr h) →
  (generate_html_css service analysis image c w).1 !! "success"
    = Some (PyBool true) ∧
  ¬ occurs h fence ∧ stripped h ∧
  ∃ t, service (calls w) {| req_prompt := code_prompt analysis c; req_image := image |}
         = Returns (Text t) ∧
       part_of h t.
Proof.
  rewrite generate_html_css_run. cbn [fst].
  destruct (service _ _) as [[t|e]|e]; intros Hh.
  - destruct (generated_lookup (_extract_html t)) as [Hs Hh'].
    rewrite Hh' in Hh. injection Hh as <-.
    split; [done|]. split; [apply result_has_no_fence|].
    split; [apply extract_html_stripped|].
    exists t. split; [done|apply extract_html_within].
  - destruct (failure_lookup e) as (_ & _ & _ & Hnone). congruence.
  - destruct (failure_lookup e) as (_ & _ & _ & Hnone). congruence.
Qed.

Lemma generated_html_is_clean_witness :
  ¬ occurs (lit "<p>hi</p>") fence ∧ stripped (lit "<p>hi</p>").
Proof.
  destruct (generated_html_is_clean
              (two_step_service prose_and_tagged_block prose_and_tagged_block)
              ∅ one_pixel no_customizations fresh_app (lit "<p>hi</p>")
              ltac:(by vm_compute)) as (_ & H1 & H2 & _).
  exact (conj H1 H2).
Defined.
